(** * hack/import-assets/providers.go: the provider manifest pipeline

    A shallow embedding of the manifest transformation of
    [hack/import-assets/providers.go]: the cert-manager to service-ca
    rewrite, the RBAC split, the metal3 IPAM filter, the image key
    derivation with its catalog merge, and the trailing newline helper.

    Go strings and byte slices are sequences of bytes: [string] here is
    Rocq's list of [ascii].  Go maps are [gmap string string].  A panic is
    a value of [panic], threaded through [result]. *)

From Stdlib Require Import Strings.String Strings.Ascii.
From stdpp Require Import base option list gmap strings fin_maps.

Open Scope string_scope.
Open Scope list_scope.

(** ** Pieces of Go's [strings] and [bytes] packages used by the file *)

Module GoStrings.

(** [strings.ToLower] as it acts on ASCII text: the bytes 'A'..'Z' are
    mapped to 'a'..'z', every other byte is kept.  This is the function
    on the provider type tags and the provider names of the table, which
    are ASCII; [stringsToLower] below is the function on any string. *)
Definition lowerByte (c : ascii) : ascii :=
  let n := nat_of_ascii c in
  if (65 <=? n)%nat && (n <=? 90)%nat then ascii_of_nat (n + 32) else c.

Fixpoint ToLower (s : string) : string :=
  match s with
  | EmptyString => EmptyString
  | String c s' => String (lowerByte c) (ToLower s')
  end.

(** No byte of [s] is at or above [utf8.RuneSelf] (0x80). *)
Fixpoint isASCII (s : string) : bool :=
  match s with
  | EmptyString => true
  | String c s' => (nat_of_ascii c <? 128)%nat && isASCII s'
  end.

(** [strings.ToLower] on any string.  Go folds the bytes of a string that
    is all ASCII, which is [ToLower]; every other string goes through
    [strings.Map(unicode.ToLower, s)], which maps by Unicode code point
    (U+0130 to "i", for one).  The case tables are those of Go's
    [unicode] package, so that mapping is the parameter
    [mapUnicodeToLower]. *)
Definition stringsToLower (mapUnicodeToLower : string -> string) (s : string)
  : string :=
  if isASCII s then ToLower s else mapUnicodeToLower s.

(** [strings.Contains s substr]: [substr] starts at some offset of [s]. *)
Fixpoint Contains (s substr : string) : bool :=
  String.prefix substr s ||
  match s with
  | EmptyString => false
  | String _ s' => Contains s' substr
  end.

(** [strings.ReplaceAll s old new] for a non-empty [old]: the
    occurrences of [old] are replaced left to right, without overlap.
    [skip] counts the bytes of the occurrence being stepped over. *)
Fixpoint replaceFrom (old new : string) (skip : nat) (s : string) : string :=
  match s with
  | EmptyString => EmptyString
  | String c s' =>
      match skip with
      | S k => replaceFrom old new k s'
      | O =>
          if String.prefix old s
          then new +:+ replaceFrom old new (String.length old - 1) s'
          else String c (replaceFrom old new O s')
      end
  end.

(** With an empty [old] Go inserts [new] before every byte and at the
    end. *)
Fixpoint intersperse (new s : string) : string :=
  match s with
  | EmptyString => new
  | String c s' => new +:+ String c (intersperse new s')
  end.

Definition ReplaceAll (s old new : string) : string :=
  match old with
  | EmptyString => intersperse new s
  | _ => replaceFrom old new O s
  end.

(** [strings.Split s sep] for a one-byte separator, which is what both
    call sites pass.  [splitOn] yields the first field and the list of
    the following ones, so the result has [1 + count sep s] fields and
    is never empty. *)
Fixpoint splitOn (sep : ascii) (s : string) : string * list string :=
  match s with
  | EmptyString => (EmptyString, [])
  | String c s' =>
      let '(h, t) := splitOn sep s' in
      if Ascii.eqb c sep then (EmptyString, h :: t) else (String c h, t)
  end.

Definition Split (s : string) (sep : ascii) : list string :=
  let '(h, t) := splitOn sep s in h :: t.

(** [bytes.TrimRight b cutset]: the trailing bytes that occur in
    [cutset] are removed. *)
Fixpoint TrimRight (b : list ascii) (cutset : list ascii) : list ascii :=
  match b with
  | [] => []
  | c :: r =>
      match TrimRight r cutset with
      | [] => if bool_decide (c ∈ cutset) then [] else [c]
      | r' => c :: r'
      end
  end.

End GoStrings.

Import GoStrings.

(** ** Data model *)

(** The ways the Go code stops a run with a panic. *)
Inductive panic :=
| ConvertError                      (* panic(err) after a failed scheme.Convert *)
| IndexOutOfRange                   (* runtime error: index out of range *)
| NilDereference                    (* runtime error: nil pointer dereference *)
| CantFindSecret (certNN : string). (* panic("can't find secret from cert " + certNN) *)

(** An [error] value returned to the caller. *)
Inductive error :=
| ErrConvert.                       (* the err of scheme.Convert, returned *)

Inductive outcome (E A : Type) :=
| Ok (a : A)
| Fail (e : E).
Arguments Ok {E A} a.
Arguments Fail {E A} e.

Abbreviation result := (outcome panic).

#[global] Instance outcome_bind {E} : MBind (outcome E) := fun A B k r =>
  match r with
  | Ok a => k a
  | Fail e => Fail e
  end.

(** [for _, x := range l { s = body(s, x) }] where the body may stop the
    run. *)
Fixpoint forRange {E A S} (body : S -> A -> outcome E S) (s : S) (l : list A)
  : outcome E S :=
  match l with
  | [] => Ok s
  | x :: l' => s' ← body s x; forRange body s' l'
  end.

(** [l[i]] on a slice. *)
Definition index {A} (l : list A) (i : nat) : result A :=
  match l !! i with
  | Some x => Ok x
  | None => Fail IndexOutOfRange
  end.

(** [*p] on a pointer, [None] being nil. *)
Definition deref {A} (p : option A) : result A :=
  match p with
  | Some x => Ok x
  | None => Fail NilDereference
  end.

(** What the typed views of an object read below its metadata.  The Go
    types live in the Kubernetes and cert-manager API packages; only the
    paths that providers.go follows are kept.
    - Certificate: [Spec.SecretName];
    - CustomResourceDefinition: [Spec.Conversion.Webhook.ClientConfig.Service.Name],
      a chain of pointers, [None] when one of them is nil;
    - Mutating/ValidatingWebhookConfiguration: per entry of [Webhooks],
      [ClientConfig.Service.Name], [None] when [Service] is nil;
    - Deployment: per entry of [Spec.Template.Spec.Containers], [Image];
    - [OtherFields]: content that decodes into none of these shapes. *)
Inductive payload :=
| CertificateSpec (secretName : string)
| CRDSpec (conversionService : option string)
| WebhooksSpec (webhooks : list (option string))
| DeploymentSpec (images : list string)
| OtherFields.

(** [unstructured.Unstructured], through the accessors the code uses.
    [annotations] is [None] when metadata carries no annotations field
    ([GetAnnotations] then returns a nil map). *)
Record Unstructured := {
  GetKind : string;
  GetName : string;
  GetNamespace : string;
  annotations : option (gmap string string);
  content : payload
}.

Definition GetAnnotations (obj : Unstructured) : gmap string string :=
  default ∅ (annotations obj).

Definition SetAnnotations (obj : Unstructured) (anns : gmap string string)
  : Unstructured :=
  {| GetKind := GetKind obj; GetName := GetName obj;
     GetNamespace := GetNamespace obj;
     annotations := Some anns; content := content obj |}.

(** The typed objects [scheme.Convert] fills in. *)
Record Certificate := {
  Certificate_Name : string;
  Certificate_Spec_SecretName : string
}.

Record CustomResourceDefinition := {
  CRD_Annotations : gmap string string;
  CRD_ConversionService : option string
}.

Record WebhookConfiguration := {
  WC_Annotations : gmap string string;
  WC_Webhooks : list (option string)
}.

Record Deployment := {
  Deployment_Containers : list string
}.

(** [scheme.Convert(&obj, typed, nil)]: metadata is carried over, the
    content has to decode into the shape of the target type. *)
Definition convertCertificate (obj : Unstructured) : option Certificate :=
  match content obj with
  | CertificateSpec s =>
      Some {| Certificate_Name := GetName obj; Certificate_Spec_SecretName := s |}
  | _ => None
  end.

Definition convertCRD (obj : Unstructured) : option CustomResourceDefinition :=
  match content obj with
  | CRDSpec svc =>
      Some {| CRD_Annotations := GetAnnotations obj; CRD_ConversionService := svc |}
  | _ => None
  end.

Definition convertWebhookConfiguration (obj : Unstructured)
  : option WebhookConfiguration :=
  match content obj with
  | WebhooksSpec ws =>
      Some {| WC_Annotations := GetAnnotations obj; WC_Webhooks := ws |}
  | _ => None
  end.

Definition convertDeployment (obj : Unstructured) : option Deployment :=
  match content obj with
  | DeploymentSpec imgs => Some {| Deployment_Containers := imgs |}
  | _ => None
  end.

(** [if err := scheme.Convert(...); err != nil { panic(err) }] *)
Definition orPanic {A} (o : option A) : result A :=
  match o with
  | Some x => Ok x
  | None => Fail ConvertError
  end.

Definition injectCAFrom : string := "cert-manager.io/inject-ca-from".
Definition injectCABundle : string := "service.beta.openshift.io/inject-cabundle".
Definition servingCertSecretName : string :=
  "service.beta.openshift.io/serving-cert-secret-name".

(** [clusterctlv1.ProviderType] is a string type; these are its tags. *)
Definition CoreProviderType : string := "CoreProvider".
Definition BootstrapProviderType : string := "BootstrapProvider".
Definition ControlPlaneProviderType : string := "ControlPlaneProvider".
Definition InfrastructureProviderType : string := "InfrastructureProvider".

Record provider := {
  name : string;
  version : string;
  ptype : string
}.

Definition providerTypeName (p : provider) : string :=
  ReplaceAll (ToLower (ptype p)) "provider" "".

(** ** ensureNewLine *)

Definition newline : ascii := "010"%char.

Definition ensureNewLine (b : list ascii) : list ascii :=
  TrimRight b [newline] ++ [newline].

(** ** findWebhookServiceSecretName *)

Definition secretFromCertNN (certSecretNames : gmap string string)
    (certNN : string) : result (string * bool) :=
  certName ← index (Split certNN "/") 1;
  match certSecretNames !! certName with
  | Some secretName =>
      if bool_decide (secretName = "") then Ok ("", false)
      else Ok (secretName, true)
  | None => Ok ("", false)
  end.

(** Body of the first loop: Certificate objects fill [certSecretNames]. *)
Definition collectCertificate (certSecretNames : gmap string string)
    (obj : Unstructured) : result (gmap string string) :=
  if bool_decide (GetKind obj = "Certificate") then
    cert ← orPanic (convertCertificate obj);
    Ok (<[Certificate_Name cert := Certificate_Spec_SecretName cert]> certSecretNames)
  else Ok certSecretNames.

(** The three arms of the second loop share this shape: look the
    annotation up, resolve it, then follow the path to the service name. *)
Definition recordService (certSecretNames serviceSecretNames : gmap string string)
    (anns : gmap string string) (serviceName : result string)
  : result (gmap string string) :=
  match anns !! injectCAFrom with
  | Some certNN =>
      '(secretName, ok) ← secretFromCertNN certSecretNames certNN;
      if ok : bool then
        svc ← serviceName;
        Ok (<[svc := secretName]> serviceSecretNames)
      else Fail (CantFindSecret certNN)
  | None => Ok serviceSecretNames
  end.

(** Body of the second loop. *)
Definition collectService (certSecretNames serviceSecretNames : gmap string string)
    (obj : Unstructured) : result (gmap string string) :=
  if bool_decide (GetKind obj = "CustomResourceDefinition") then
    crd ← orPanic (convertCRD obj);
    recordService certSecretNames serviceSecretNames (CRD_Annotations crd)
      (deref (CRD_ConversionService crd))
  else if bool_decide (GetKind obj = "MutatingWebhookConfiguration") then
    mwc ← orPanic (convertWebhookConfiguration obj);
    recordService certSecretNames serviceSecretNames (WC_Annotations mwc)
      (w ← index (WC_Webhooks mwc) 0; deref w)
  else if bool_decide (GetKind obj = "ValidatingWebhookConfiguration") then
    vwc ← orPanic (convertWebhookConfiguration obj);
    recordService certSecretNames serviceSecretNames (WC_Annotations vwc)
      (w ← index (WC_Webhooks vwc) 0; deref w)
  else Ok serviceSecretNames.

Definition findWebhookServiceSecretName (objs : list Unstructured)
  : result (gmap string string) :=
  certSecretNames ← forRange collectCertificate ∅ objs;
  forRange (collectService certSecretNames) ∅ objs.

(** ** imageToKey and updateImages *)

(** [frag[len(frag)-1]] and [Split(...)[0]] are always in range, a split
    having at least one field ([Split_cons] below); the defaults of
    [List.last] and [hd] are never used. *)
Definition imageToKey (p : provider) (fullImage : string) : string :=
  let frag := Split fullImage "/" in
  let nameVer := List.last frag "" in
  let name_ := hd "" (Split nameVer ":") in
  if bool_decide (name_ = "kube-rbac-proxy") then "kube-rbac-proxy"
  else if bool_decide (name_ = "ip-address-manager") then
    providerTypeName p +:+ "-" +:+ name p +:+ ":" +:+ name_
  else providerTypeName p +:+ "-" +:+ name p +:+ ":manager".

(** The inner loop over the containers of one Deployment. *)
Definition recordImages (p : provider) (containerImages : gmap string string)
    (images : list string) : gmap string string :=
  foldl (fun m image => <[imageToKey p image := image]> m) containerImages images.

Definition updateImagesObj (p : provider) (containerImages : gmap string string)
    (obj : Unstructured) : outcome error (gmap string string) :=
  if bool_decide (GetKind obj = "Deployment") then
    match convertDeployment obj with
    | Some dep => Ok (recordImages p containerImages (Deployment_Containers dep))
    | None => Fail ErrConvert
    end
  else Ok containerImages.

(** [updateImages] between the read of sample-images.json into
    [containerImages] and the write of the map it ends with.  On [Fail]
    the function has returned before the write and the file is as it
    was. *)
Definition updateImages (p : provider) (containerImages : gmap string string)
    (objs : list Unstructured) : outcome error (gmap string string) :=
  forRange (updateImagesObj p) containerImages objs.

(** ** certManagerToServiceCA *)

Definition injectionKinds : list string :=
  ["CustomResourceDefinition"; "MutatingWebhookConfiguration";
   "ValidatingWebhookConfiguration"].

Definition skippedKinds : list string := ["Certificate"; "Issuer"; "Namespace"].

(** Body of the loop; [finalObjs] is the slice appended to. *)
Definition rewriteStep (serviceSecretNames : gmap string string)
    (finalObjs : list Unstructured) (obj : Unstructured) : list Unstructured :=
  if bool_decide (GetKind obj ∈ injectionKinds) then
    let anns := GetAnnotations obj in
    match anns !! injectCAFrom with
    | Some _ =>
        let anns := delete injectCAFrom (<[injectCABundle := "true"]> anns) in
        finalObjs ++ [SetAnnotations obj anns]
    | None => finalObjs ++ [obj]
    end
  else if bool_decide (GetKind obj = "Service") then
    let anns := GetAnnotations obj in
    match serviceSecretNames !! GetName obj with
    | Some secret =>
        finalObjs ++ [SetAnnotations obj (<[servingCertSecretName := secret]> anns)]
    | None => finalObjs ++ [obj]
    end
  else if bool_decide (GetKind obj ∈ skippedKinds) then finalObjs
  else finalObjs ++ [obj].

Definition certManagerToServiceCA (objs : list Unstructured)
  : result (list Unstructured) :=
  serviceSecretNames ← findWebhookServiceSecretName objs;
  Ok (foldl (rewriteStep serviceSecretNames) [] objs).

(** ** filterOutIPAM *)

(** [mapUnicodeToLower] is the Unicode path of [strings.ToLower], see
    [stringsToLower]. *)
Definition filterOutIPAM (mapUnicodeToLower : string -> string)
    (objs : list Unstructured) : list Unstructured :=
  foldl (fun finalObjs obj =>
           if bool_decide (GetKind obj = "CustomResourceDefinition")
              || negb (Contains (stringsToLower mapUnicodeToLower (GetName obj))
                         "ipam")
           then finalObjs ++ [obj] else finalObjs) [] objs.

(** ** splitRBACOut and the pipeline of importProviders *)

Definition rbacKinds : list string :=
  ["ClusterRole"; "Role"; "ClusterRoleBinding"; "RoleBinding"; "ServiceAccount"].

Section Pipeline.

(** [setOpenShiftAnnotations] is defined in another file of the
    package.  It receives a copy of the struct that shares the object's
    content map; [setOpenShiftAnnotations obj merge] stands for the
    object as the call leaves it. *)
Variable setOpenShiftAnnotations : Unstructured -> bool -> Unstructured.

(** The Unicode path of [strings.ToLower], for [filterOutIPAM]. *)
Variable mapUnicodeToLower : string -> string.

Definition splitStep (acc : list Unstructured * list Unstructured)
    (obj : Unstructured) : list Unstructured * list Unstructured :=
  let '(finalObjs, rbacObjs) := acc in
  if bool_decide (GetKind obj ∈ rbacKinds) then
    (finalObjs, rbacObjs ++ [setOpenShiftAnnotations obj false])
  else (finalObjs ++ [obj], rbacObjs).

Definition splitRBACOut (objs : list Unstructured)
  : list Unstructured * list Unstructured :=
  foldl splitStep ([], []) objs.

(** The body of the loop of [importProviders] from the loaded
    components to the two streams handed to the writers:
    [(finalObjs, rbacObjs)]. *)
Definition importStreams (p : provider) (objs : list Unstructured)
  : result (list Unstructured * list Unstructured) :=
  rewritten ← certManagerToServiceCA objs;
  let '(finalObjs, rbacObjs) := splitRBACOut rewritten in
  let finalObjs :=
    if bool_decide (name p = "metal3")
    then filterOutIPAM mapUnicodeToLower finalObjs
    else finalObjs in
  Ok (finalObjs, rbacObjs).

End Pipeline.

(** ** loadVersion, the writers and the loop of importProviders *)

(** The table [providers]; [version] is filled in by [loadVersion]. *)
Definition providers : list provider :=
  [ {| name := "cluster-api"; version := ""; ptype := CoreProviderType |};
    {| name := "aws"; version := ""; ptype := InfrastructureProviderType |};
    {| name := "azure"; version := ""; ptype := InfrastructureProviderType |};
    {| name := "metal3"; version := ""; ptype := InfrastructureProviderType |};
    {| name := "gcp"; version := ""; ptype := InfrastructureProviderType |};
    {| name := "openstack"; version := ""; ptype := InfrastructureProviderType |} ].

(** [loadVersion] after provider-versions.json has been read into
    [providerVersions]: [p.version = providerVersions[p.name]], the zero
    value when the key is missing. *)
Definition loadVersion (providerVersions : gmap string string) (p : provider)
  : provider :=
  {| name := name p; version := default "" (providerVersions !! name p);
     ptype := ptype p |}.

(** The ConfigMap [writeProviderComponents] builds from the serialized
    objects [combined] and [p.metadata]. *)
Record ConfigMap := {
  cm_Kind : string;
  cm_APIVersion : string;
  cm_Name : string;
  cm_Namespace : string;
  cm_Labels : gmap string string;
  cm_Data : gmap string string
}.

Definition writeProviderComponents_cm (p : provider) (metadata combined : string)
  : ConfigMap :=
  {| cm_Kind := "ConfigMap"; cm_APIVersion := "v1";
     cm_Name := name p +:+ "-" +:+ version p;
     cm_Namespace := "openshift-cluster-api";
     cm_Labels :=
       <["provider.cluster.x-k8s.io/name" := name p]>
         (<["provider.cluster.x-k8s.io/type" := providerTypeName p]>
            (<["provider.cluster.x-k8s.io/version" := version p]> ∅));
     cm_Data := <["metadata" := metadata]> (<["components" := combined]> ∅) |}.

(** The [fName] of the three writers. *)
Definition writeProviderComponents_fName (p : provider) : string :=
  ToLower (providerTypeName p +:+ "-" +:+ name p +:+ ".yaml").

Definition writeRBACComponentsToManifests_fName (p : provider) : string :=
  ToLower ("0000_30_cluster-api-" +:+ providerTypeName p +:+ "-" +:+ name p
           +:+ "_03_rbac.yaml").

Definition writeProviders_fName (p : provider) : string :=
  ToLower (providerTypeName p +:+ "-" +:+ name p +:+ "-provider.yaml").

(** [operatorv1.ProviderSpec] as [providerSpec] fills it: the version and
    the match labels of the fetch selector. *)
Record ProviderSpec := {
  ps_Version : string;
  ps_MatchLabels : gmap string string
}.

Definition providerSpec (p : provider) : ProviderSpec :=
  {| ps_Version := version p;
     ps_MatchLabels :=
       <["provider.cluster.x-k8s.io/name" := name p]>
         (<["provider.cluster.x-k8s.io/type" := providerTypeName p]> ∅) |}.

(** The object [writeProviders] marshals. *)
Record ProviderObject := {
  po_Kind : string;
  po_APIVersion : string;
  po_Name : string;
  po_Namespace : string;
  po_Spec : ProviderSpec
}.

Definition newProviderObject (kind : string) (p : provider) : ProviderObject :=
  {| po_Kind := kind; po_APIVersion := "operator.cluster.x-k8s.io/v1alpha1";
     po_Name := ""; po_Namespace := ""; po_Spec := providerSpec p |}.

(** [writeProviders] up to [yaml.Marshal]: the switch leaves the
    interface value [obj] nil when no case matches, and [obj.SetName] on
    it panics. *)
Definition writeProviders_obj (p : provider) : result ProviderObject :=
  let obj :=
    if bool_decide (providerTypeName p = "core") then
      Some (newProviderObject "CoreProvider" p)
    else if bool_decide (providerTypeName p = "controlplane") then
      Some (newProviderObject "ControlPlaneProvider" p)
    else if bool_decide (providerTypeName p = "bootstrap") then
      Some (newProviderObject "BootstrapProvider" p)
    else if bool_decide (providerTypeName p = "infrastructure") then
      Some (newProviderObject "InfrastructureProvider" p)
    else None in
  obj ← deref obj;
  Ok {| po_Kind := po_Kind obj; po_APIVersion := po_APIVersion obj;
        po_Name := name p; po_Namespace := "openshift-cluster-api";
        po_Spec := po_Spec obj |}.

Section ImportProviders.

(** The statements of the loop of [importProviders] after the
    [continue]: loading, transforming and writing one provider.  They act
    on the network and the file system, [W]; here they are one step that
    may return an error. *)
Context {W Err : Type}.
Variable importProvider : W -> provider -> outcome Err W.

Definition importProvidersStep (providerFilter : string) (w : W) (p : provider)
  : outcome Err W :=
  if bool_decide (providerFilter <> "") && bool_decide (name p <> providerFilter)
  then Ok w
  else importProvider w p.

Definition importProviders (providerFilter : string) (w : W) : outcome Err W :=
  forRange (importProvidersStep providerFilter) w providers.

End ImportProviders.

(** ** Notions used to state the properties *)

(** The byte [c] occurs in [s]. *)
Fixpoint hasByte (c : ascii) (s : string) : bool :=
  match s with
  | EmptyString => false
  | String c' s' => Ascii.eqb c' c || hasByte c s'
  end.

(** The fields [h :: t] joined with the separator, the inverse of
    [Split]. *)
Fixpoint joinFields (sep : ascii) (h : string) (t : list string) : string :=
  match t with
  | [] => h
  | x :: t' => h +:+ String sep (joinFields sep x t')
  end.

(** The certificate to secret map of the first pass, as the
    specification words it: every object of kind Certificate records
    [name -> spec.secretName], a later one replacing an earlier one of
    the same name. *)
Definition certificateBindings (objs : list Unstructured) : gmap string string :=
  foldl (fun m obj =>
           if bool_decide (GetKind obj = "Certificate") then
             match content obj with
             | CertificateSpec s => <[GetName obj := s]> m
             | _ => m
             end
           else m) ∅ objs.

(** An annotation value resolves: its second "/"-field names a
    certificate bound to a non-empty secret name. *)
Definition resolves (bindings : gmap string string) (certNN : string) : Prop :=
  exists certName secretName,
    Split certNN "/" !! 1%nat = Some certName /\
    bindings !! certName = Some secretName /\
    secretName <> "".

(** The content of an object decodes into the Go type of its kind, for
    the kinds the resolver converts. *)
Definition decodes (obj : Unstructured) : Prop :=
  (GetKind obj = "Certificate" -> is_Some (convertCertificate obj)) /\
  (GetKind obj = "CustomResourceDefinition" -> is_Some (convertCRD obj)) /\
  (GetKind obj = "MutatingWebhookConfiguration" ->
   is_Some (convertWebhookConfiguration obj)) /\
  (GetKind obj = "ValidatingWebhookConfiguration" ->
   is_Some (convertWebhookConfiguration obj)).

(** The service an object refers to: the conversion webhook service of a
    CRD, the client-config service of the first webhook entry. *)
Definition webhookService (obj : Unstructured) : option string :=
  match content obj with
  | CRDSpec svc => svc
  | WebhooksSpec (svc :: _) => svc
  | _ => None
  end.

(** What the rewrite does to one object, as the specification words it.
    [sameBody] holds of two objects that differ in their annotations at
    most. *)
Definition sameBody (obj obj' : Unstructured) : Prop :=
  GetKind obj' = GetKind obj /\ GetName obj' = GetName obj /\
  GetNamespace obj' = GetNamespace obj /\ content obj' = content obj.

Inductive rewrites (serviceSecretNames : gmap string string)
  : Unstructured -> option Unstructured -> Prop :=
| rewrites_swap obj obj' certNN :
    GetKind obj ∈ injectionKinds ->
    GetAnnotations obj !! injectCAFrom = Some certNN ->
    sameBody obj obj' ->
    GetAnnotations obj' !! injectCAFrom = None ->
    GetAnnotations obj' !! injectCABundle = Some "true" ->
    (forall k, k <> injectCAFrom -> k <> injectCABundle ->
               GetAnnotations obj' !! k = GetAnnotations obj !! k) ->
    rewrites serviceSecretNames obj (Some obj')
| rewrites_unannotated obj :
    GetKind obj ∈ injectionKinds ->
    GetAnnotations obj !! injectCAFrom = None ->
    rewrites serviceSecretNames obj (Some obj)
| rewrites_service obj obj' secret :
    GetKind obj = "Service" ->
    serviceSecretNames !! GetName obj = Some secret ->
    sameBody obj obj' ->
    GetAnnotations obj' !! servingCertSecretName = Some secret ->
    (forall k, k <> servingCertSecretName ->
               GetAnnotations obj' !! k = GetAnnotations obj !! k) ->
    rewrites serviceSecretNames obj (Some obj')
| rewrites_service_unmatched obj :
    GetKind obj = "Service" ->
    serviceSecretNames !! GetName obj = None ->
    rewrites serviceSecretNames obj (Some obj)
| rewrites_dropped obj :
    GetKind obj ∈ skippedKinds ->
    rewrites serviceSecretNames obj None
| rewrites_other obj :
    GetKind obj ∉ injectionKinds ->
    GetKind obj <> "Service" ->
    GetKind obj ∉ skippedKinds ->
    rewrites serviceSecretNames obj (Some obj).

(** One turn of the loop of [certManagerToServiceCA] as a function of the
    object: what is appended, if anything. *)
Definition rewriteObject (serviceSecretNames : gmap string string)
    (obj : Unstructured) : option Unstructured :=
  match rewriteStep serviceSecretNames [] obj with
  | [] => None
  | obj' :: _ => Some obj'
  end.

(** The IPAM filter keeps an object. *)
Definition survivesIPAM (mapUnicodeToLower : string -> string)
    (obj : Unstructured) : Prop :=
  GetKind obj = "CustomResourceDefinition" \/
  Contains (stringsToLower mapUnicodeToLower (GetName obj)) "ipam" = false.

#[global] Instance survivesIPAM_dec lower obj : Decision (survivesIPAM lower obj).
Proof. unfold survivesIPAM. apply _. Defined.

(** The reasons for which the pipeline may leave an object out. *)
Definition namedDrop (mapUnicodeToLower : string -> string) (p : provider)
    (obj : Unstructured) : Prop :=
  GetKind obj ∈ skippedKinds \/
  (name p = "metal3" /\ GetKind obj <> "CustomResourceDefinition" /\
   Contains (stringsToLower mapUnicodeToLower (GetName obj)) "ipam" = true).

#[global] Instance namedDrop_dec lower p obj : Decision (namedDrop lower p obj).
Proof. unfold namedDrop. apply _. Defined.

(** The three destinations of an input object: the rbac stream, the named
    drops, the core stream. *)
Definition rbacInputs (objs : list Unstructured) : list Unstructured :=
  filter (fun obj => GetKind obj ∈ rbacKinds) objs.

Definition droppedInputs (mapUnicodeToLower : string -> string) (p : provider)
    (objs : list Unstructured) : list Unstructured :=
  filter (fun obj => (GetKind obj ∉ rbacKinds) /\
                     namedDrop mapUnicodeToLower p obj) objs.

Definition coreInputs (mapUnicodeToLower : string -> string) (p : provider)
    (objs : list Unstructured) : list Unstructured :=
  filter (fun obj => (GetKind obj ∉ rbacKinds) /\
                     ~ namedDrop mapUnicodeToLower p obj) objs.

(** The images of the containers of the Deployment objects, in the order
    the loops of [updateImages] visit them. *)
Definition containerImagesOf (objs : list Unstructured) : list string :=
  objs ≫= fun obj =>
    if bool_decide (GetKind obj = "Deployment") then
      match content obj with
      | DeploymentSpec images => images
      | _ => []
      end
    else [].

(** The bare component name as the specification words it: the trailing
    path segment with any tag (":...") or digest ("@...") suffix
    stripped. *)
Fixpoint stripTagOrDigest (segment : string) : string :=
  match segment with
  | EmptyString => EmptyString
  | String c s' =>
      if Ascii.eqb c ":" || Ascii.eqb c "@" then EmptyString
      else String c (stripTagOrDigest s')
  end.

Definition bareName_spec (fullImage : string) : string :=
  stripTagOrDigest (List.last (Split fullImage "/") "").

Definition keyOfBareName (p : provider) (bare : string) : string :=
  if bool_decide (bare = "kube-rbac-proxy") then "kube-rbac-proxy"
  else if bool_decide (bare = "ip-address-manager") then
    providerTypeName p +:+ "-" +:+ name p +:+ ":ip-address-manager"
  else providerTypeName p +:+ "-" +:+ name p +:+ ":manager".

Definition imageToKey_spec (p : provider) (fullImage : string) : string :=
  keyOfBareName p (bareName_spec fullImage).

(** The last image of [images] whose key is [key], if any. *)
Definition lastImageFor (p : provider) (key : string) (images : list string)
  : option string :=
  last (filter (fun image => imageToKey p image = key) images).

(** The three keys [imageToKey] can answer with for a provider. *)
Definition providerKeys (p : provider) : list string :=
  ["kube-rbac-proxy";
   providerTypeName p +:+ "-" +:+ name p +:+ ":ip-address-manager";
   providerTypeName p +:+ "-" +:+ name p +:+ ":manager"].

(** The type names [writeProviders] has a case for. *)
Definition providerTypeNames : list string :=
  ["core"; "controlplane"; "bootstrap"; "infrastructure"].

(** The content of an object of an injection kind has the shape of its
    kind. *)
Definition injectionShape (obj : Unstructured) : Prop :=
  match content obj with
  | CRDSpec _ => GetKind obj = "CustomResourceDefinition"
  | WebhooksSpec _ => GetKind obj <> "CustomResourceDefinition"
  | _ => False
  end.

(** ** Sample manifests *)

Definition mkObject (kind name : string) (anns : option (gmap string string))
    (c : payload) : Unstructured :=
  {| GetKind := kind; GetName := name; GetNamespace := "capi-system";
     annotations := anns; content := c |}.

Definition sampleCert : Unstructured :=
  mkObject "Certificate" "c1" None (CertificateSpec "s1").

Definition sampleCRD : Unstructured :=
  mkObject "CustomResourceDefinition" "crd1"
    (Some {[injectCAFrom := "ns/c1"]}) (CRDSpec (Some "svc1")).

Definition sampleService : Unstructured :=
  mkObject "Service" "svc1" None OtherFields.

(** A CRD whose annotation names a certificate that is not in the set. *)
Definition danglingCRD : Unstructured :=
  mkObject "CustomResourceDefinition" "crd2"
    (Some {[injectCAFrom := "ns/missing"]}) (CRDSpec (Some "svc1")).

(** A CRD whose annotation value has no "/". *)
Definition bareCRD : Unstructured :=
  mkObject "CustomResourceDefinition" "crd3"
    (Some {[injectCAFrom := "c1"]}) (CRDSpec (Some "svc1")).

(** A webhook configuration with a resolvable annotation and no webhook
    entry. *)
Definition emptyMWC : Unstructured :=
  mkObject "MutatingWebhookConfiguration" "mwc1"
    (Some {[injectCAFrom := "ns/c1"]}) (WebhooksSpec []).

(** An object of kind Certificate whose content does not decode. *)
Definition brokenCert : Unstructured :=
  mkObject "Certificate" "c2" None OtherFields.

Definition infraMetal3 : provider :=
  {| name := "metal3"; version := "v1.1.0"; ptype := InfrastructureProviderType |}.

Definition coreClusterAPI : provider :=
  {| name := "cluster-api"; version := "v1.1.0"; ptype := CoreProviderType |}.

(** A Deployment with a manager and a helper container. *)
Definition twoContainers : Unstructured :=
  mkObject "Deployment" "capi-controller-manager" None
    (DeploymentSpec ["quay.io/capi/controller:v1"; "quay.io/capi/helper:v1"]).

Definition sampleRole : Unstructured :=
  mkObject "Role" "capm3-ipam-role" None OtherFields.

Definition ipamDeployment : Unstructured :=
  mkObject "Deployment" "capm3-ipam-controller" None
    (DeploymentSpec ["quay.io/metal3-io/ip-address-manager:v1"]).

Definition ipamCRD : Unstructured :=
  mkObject "CustomResourceDefinition" "ippools.ipam.metal3.io" None (CRDSpec None).

(** A fragment of [strings.Map(unicode.ToLower, s)]: the UTF-8 bytes of
    U+0130 (196, 176) become "i", the bytes 'A'..'Z' are folded, every
    other byte is kept. *)
Fixpoint sampleMapToLower (s : string) : string :=
  match s with
  | EmptyString => EmptyString
  | String c1 s1 =>
      match s1 with
      | String c2 s2 =>
          if Ascii.eqb c1 "196" && Ascii.eqb c2 "176"
          then String "i" (sampleMapToLower s2)
          else String (lowerByte c1) (sampleMapToLower s1)
      | EmptyString => String (lowerByte c1) EmptyString
      end
  end.

(** A Service whose name starts with U+0130, which Go lower-cases to
    "i": the name becomes "ipam-controller". *)
Definition dottedService : Unstructured :=
  mkObject "Service" (String "196" (String "176" "PAM-controller")) None OtherFields.

(** A stand-in for the platform annotation step. *)
Definition sampleAnnotate (obj : Unstructured) (merge : bool) : Unstructured :=
  SetAnnotations obj
    (<["include.release.openshift.io/self-managed-high-availability" := "true"]>
       (if merge then GetAnnotations obj else ∅)).

(** * Properties *)

(** ** Go string helpers *)

Example ToLower_example : ToLower "CAPM3-Ipam_x9" = "capm3-ipam_x9".
Proof. reflexivity. Qed.

Example Contains_example :
  Contains "capm3-ipam-controller" "ipam" = true /\
  Contains "capm3-controller" "ipam" = false.
Proof. by split. Qed.

Example ReplaceAll_example :
  ReplaceAll "infrastructureprovider" "provider" "" = "infrastructure" /\
  ReplaceAll "aXXbXXXc" "XX" "-" = "a-b-Xc".
Proof. by split. Qed.

Example Split_example :
  Split "a/b//c" "/" = ["a"; "b"; ""; "c"] /\ Split "" "/" = [""] /\
  Split "abc" "/" = ["abc"].
Proof. by repeat split. Qed.

Lemma prefix_app (sub s : string) :
  String.prefix sub s = true <-> exists post, s = sub +:+ post.
Proof.
  revert s. induction sub as [|c sub IH]; intros s; simpl.
  - destruct s; (split; [intros _; by eexists|done]).
  - destruct s as [|c' s]; simpl.
    + split; [done|]. by intros [post [=]].
    + destruct (ascii_dec c c') as [->|Hne].
      * rewrite IH. split; intros [post H]; exists post; simpl in *;
          [by rewrite H|by injection H].
      * split; [done|]. intros [post H]. simpl in H. by injection H.
Qed.

Lemma Contains_cons (c : ascii) (s substr : string) :
  Contains (String c s) substr =
  String.prefix substr (String c s) || Contains s substr.
Proof. reflexivity. Qed.

(** [Contains s substr] holds exactly when [substr] occurs in [s]. *)
Lemma Contains_occurs (s substr : string) :
  Contains s substr = true <-> exists pre post, s = pre +:+ substr +:+ post.
Proof.
  induction s as [|c s IH].
  - change (Contains "" substr) with (String.prefix substr "" || false).
    rewrite orb_false_r, prefix_app. split.
    + intros [post H]. by exists EmptyString, post.
    + intros ([|c pre] & post & H); [by exists post|done].
  - rewrite Contains_cons, orb_true_iff, prefix_app, IH. split.
    + intros [[post H]|(pre & post & ->)].
      * by exists EmptyString, post.
      * by exists (String c pre), post.
    + intros ([|c' pre] & post & H).
      * left. by exists post.
      * right. simpl in H. injection H as -> ->. by exists pre, post.
Qed.

Section TrimRightFacts.

Variable cutset : list ascii.

Lemma TrimRight_all_cut (t : list ascii) :
  Forall (fun c => c ∈ cutset) t -> TrimRight t cutset = [].
Proof.
  induction 1 as [|c t Hc _ IH]; simpl; [done|].
  rewrite IH. by rewrite bool_decide_true.
Qed.

Lemma TrimRight_app_cut (l t : list ascii) :
  Forall (fun c => c ∈ cutset) t ->
  TrimRight (l ++ t) cutset = TrimRight l cutset.
Proof.
  intros Ht. induction l as [|c l IH]; simpl.
  - by apply TrimRight_all_cut.
  - by rewrite IH.
Qed.

Lemma TrimRight_split (b : list ascii) :
  exists t, b = TrimRight b cutset ++ t /\ Forall (fun c => c ∈ cutset) t.
Proof.
  induction b as [|c b (t & Hb & Ht)]; simpl.
  - by exists [].
  - destruct (TrimRight b cutset) as [|x r] eqn:E.
    + simpl in Hb. subst t. case_bool_decide.
      * exists (c :: b). split; [done|]. by constructor.
      * exists b. by split.
    + exists t. split; [|done]. by rewrite Hb at 1.
Qed.

Lemma TrimRight_last (b : list ascii) (c : ascii) :
  last (TrimRight b cutset) = Some c -> c ∉ cutset.
Proof.
  induction b as [|c0 b IH]; simpl; [done|].
  destruct (TrimRight b cutset) as [|x r] eqn:E.
  - case_bool_decide; simpl; [done|]. by intros [= <-].
  - rewrite last_cons_cons. exact IH.
Qed.

Lemma TrimRight_fixed (l : list ascii) :
  (forall c, last l = Some c -> c ∉ cutset) -> TrimRight l cutset = l.
Proof.
  induction l as [|c0 l IH]; simpl; [done|]. intros Hl.
  destruct l as [|x r].
  - simpl. rewrite bool_decide_false; [done|]. by apply Hl.
  - rewrite IH; [done|]. intros c Hc. apply Hl. by rewrite last_cons_cons.
Qed.

End TrimRightFacts.

Lemma Forall_newline_replicate (t : list ascii) :
  Forall (fun c => c ∈ [newline]) t -> t = replicate (length t) newline.
Proof.
  induction 1 as [|c t Hc _ IH]; simpl; [done|].
  apply list_elem_of_singleton in Hc. by rewrite Hc, <- IH.
Qed.

Lemma splitOn_fst_noSep (sep : ascii) (s : string) :
  hasByte sep (splitOn sep s).1 = false.
Proof.
  induction s as [|c s IH]; simpl; [done|].
  destruct (splitOn sep s) as [h t]. simpl in *.
  destruct (Ascii.eqb c sep) eqn:E; simpl; [done|]. by rewrite E.
Qed.

Lemma Split_cons (s : string) (sep : ascii) :
  Split s sep = (splitOn sep s).1 :: (splitOn sep s).2.
Proof. unfold Split. by destruct (splitOn sep s). Qed.

(** [Split] is characterised by two facts: joining the fields gives the
    string back, and no field contains the separator. *)
Lemma splitOn_join (s : string) (sep : ascii) :
  joinFields sep (splitOn sep s).1 (splitOn sep s).2 = s.
Proof.
  induction s as [|c s IH]; simpl; [done|].
  destruct (splitOn sep s) as [h t]. simpl in IH.
  destruct (Ascii.eqb c sep) eqn:E; simpl.
  - apply Ascii.eqb_eq in E as ->. by rewrite IH.
  - destruct t; simpl in *; by rewrite <- IH.
Qed.

Lemma splitOn_snd_noSep (s : string) (sep : ascii) :
  Forall (fun field => hasByte sep field = false) (splitOn sep s).2.
Proof.
  induction s as [|c s IH]; simpl; [constructor|].
  pose proof (splitOn_fst_noSep sep s) as Hh.
  destruct (splitOn sep s) as [h t]. simpl in *.
  destruct (Ascii.eqb c sep); simpl; [by constructor|done].
Qed.

Lemma Split_noSep (s : string) (sep : ascii) :
  hasByte sep s = false -> Split s sep = [s].
Proof.
  unfold Split. induction s as [|c s IH]; simpl; [done|].
  intros [Hc Hs]%orb_false_elim. rewrite Hc.
  destruct (splitOn sep s) as [h t]. specialize (IH Hs). by simplify_eq.
Qed.

Lemma Split_app_sep (a b : string) (sep : ascii) :
  hasByte sep a = false ->
  Split (a +:+ String sep b) sep = a :: Split b sep.
Proof.
  unfold Split. induction a as [|c a IH]; simpl.
  - intros _. rewrite Ascii.eqb_refl. by destruct (splitOn sep b).
  - intros [Hc Ha]%orb_false_elim. rewrite Hc. specialize (IH Ha).
    destruct (splitOn sep (a +:+ String sep b)) as [h t].
    destruct (splitOn sep b) as [h' t']. by simplify_eq.
Qed.

Lemma Split_hasByte (s : string) (sep : ascii) :
  hasByte sep s = true ->
  exists a b, hasByte sep a = false /\ s = a +:+ String sep b.
Proof.
  induction s as [|c s IH]; simpl; [done|].
  destruct (Ascii.eqb c sep) eqn:E; simpl.
  - intros _. apply Ascii.eqb_eq in E as ->. by exists EmptyString, s.
  - intros (a & b & Ha & ->)%IH. exists (String c a), b. simpl. by rewrite E, Ha.
Qed.

Lemma hasByte_app_sep (a b : string) (sep : ascii) :
  hasByte sep (a +:+ String sep b) = true.
Proof.
  induction a as [|c a IH]; simpl.
  - by rewrite Ascii.eqb_refl.
  - rewrite IH. apply orb_true_r.
Qed.

Lemma splitOn_snd_nonempty (s : string) (sep : ascii) :
  hasByte sep s = true -> (splitOn sep s).2 <> [].
Proof.
  induction s as [|c s IH]; simpl; [done|].
  destruct (splitOn sep s) as [h t]. simpl in *.
  destruct (Ascii.eqb c sep); simpl; [done|]. exact IH.
Qed.

Lemma Split_last_cons (c : ascii) (s : string) (sep : ascii) :
  hasByte sep s = true ->
  List.last (Split (String c s) sep) "" = List.last (Split s sep) "".
Proof.
  intros Hs. apply splitOn_snd_nonempty in Hs. unfold Split. simpl.
  destruct (splitOn sep s) as [h t]. simpl in Hs.
  destruct t as [|x t]; [done|]. by destruct (Ascii.eqb c sep).
Qed.

Lemma Split_last_app (a b : string) (sep : ascii) :
  List.last (Split (a +:+ String sep b) sep) "" = List.last (Split b sep) "".
Proof.
  induction a as [|c a IH].
  - simpl. rewrite (Split_app_sep "" b sep); [|done]. rewrite Split_cons.
    by destruct (splitOn sep b).2.
  - change (String c a +:+ String sep b) with (String c (a +:+ String sep b)).
    rewrite Split_last_cons; [done|]. apply hasByte_app_sep.
Qed.

(** ** ensureNewLine *)

(** C9: for every byte string [b], [ensureNewLine b] is [b] without its
    trailing newlines followed by exactly one newline, and applying it
    twice is the same as applying it once. *)
Theorem ensureNewLine_one_trailing_newline (b : list ascii) :
  exists (body : list ascii) (n : nat),
    b = body ++ replicate n newline /\
    last body <> Some newline /\
    ensureNewLine b = body ++ [newline] /\
    ensureNewLine (ensureNewLine b) = ensureNewLine b.
Proof.
  destruct (TrimRight_split [newline] b) as (t & Hb & Ht).
  exists (TrimRight b [newline]), (length t). repeat split.
  - by rewrite <- Forall_newline_replicate.
  - intros Hl%TrimRight_last. apply Hl. by apply list_elem_of_singleton.
  - unfold ensureNewLine. f_equal.
    rewrite TrimRight_app_cut.
    + apply TrimRight_fixed. apply TrimRight_last.
    + repeat constructor.
Qed.

(** ** The loops of the resolver *)

Section ForRange.

Context {E A S : Type} (body : S -> A -> outcome E S).

Lemma forRange_app (s : S) (l1 l2 : list A) :
  forRange body s (l1 ++ l2) = s' ← forRange body s l1; forRange body s' l2.
Proof.
  revert s. induction l1 as [|x l1 IH]; intros s; simpl; [done|].
  destruct (body s x); simpl; [apply IH|done].
Qed.

Lemma forRange_Fail_inv (s : S) (l : list A) (e : E) :
  forRange body s l = Fail e -> exists s' x, x ∈ l /\ body s' x = Fail e.
Proof.
  revert s. induction l as [|x l IH]; intros s; simpl; [done|].
  destruct (body s x) as [s1|e1] eqn:Hb; simpl.
  - intros (s' & y & Hy & Hf)%IH. exists s', y. split; [by right|done].
  - intros [= ->]. exists s, x. split; [by left|done].
Qed.

Lemma forRange_elem_fails (s : S) (l : list A) (x : A) :
  x ∈ l -> (forall s', exists e, body s' x = Fail e) ->
  exists e, forRange body s l = Fail e.
Proof.
  intros Hx Hf. revert s.
  induction Hx as [x l|x y l _ IH]; intros s; simpl.
  - destruct (Hf s) as [e ->]. by exists e.
  - destruct (body s y) as [s1|e1]; simpl; [by apply IH|by exists e1].
Qed.

Lemma forRange_all_Ok (s : S) (l : list A) :
  (forall s' x, x ∈ l -> exists s'', body s' x = Ok s'') ->
  exists s'', forRange body s l = Ok s''.
Proof.
  revert s. induction l as [|x l IH]; intros s Hl; simpl; [by exists s|].
  destruct (Hl s x) as [s1 ->]; [by left|]. simpl.
  apply IH. intros s' y Hy. apply Hl. by right.
Qed.

End ForRange.

Lemma secretFromCertNN_noSep (certSecretNames : gmap string string) (certNN : string) :
  hasByte "/" certNN = false ->
  secretFromCertNN certSecretNames certNN = Fail IndexOutOfRange.
Proof. intros H. unfold secretFromCertNN. by rewrite Split_noSep. Qed.

Lemma secretFromCertNN_sep (certSecretNames : gmap string string) (certNN : string) :
  hasByte "/" certNN = true ->
  exists r, secretFromCertNN certSecretNames certNN = Ok r.
Proof.
  intros (a & b & Ha & ->)%Split_hasByte. unfold secretFromCertNN.
  rewrite Split_app_sep, (Split_cons b) by done. simpl.
  destruct (certSecretNames !! _) as [s|]; [case_bool_decide|]; by eexists.
Qed.

Lemma secretFromCertNN_Ok_sep (certSecretNames : gmap string string)
    (certNN : string) (r : string * bool) :
  secretFromCertNN certSecretNames certNN = Ok r -> hasByte "/" certNN = true.
Proof.
  intros H. destruct (hasByte "/" certNN) eqn:E; [done|].
  by rewrite secretFromCertNN_noSep in H.
Qed.

(** Decoding ["<namespace>/<rest>"]: the lookup key is the field that
    follows the first separator. *)
Lemma secretFromCertNN_decode (certSecretNames : gmap string string)
    (ns rest : string) :
  hasByte "/" ns = false ->
  secretFromCertNN certSecretNames (ns +:+ String "/" rest) =
  match certSecretNames !! (splitOn "/" rest).1 with
  | Some secretName =>
      if bool_decide (secretName = "") then Ok ("", false) else Ok (secretName, true)
  | None => Ok ("", false)
  end.
Proof.
  intros H. unfold secretFromCertNN. by rewrite Split_app_sep, (Split_cons rest).
Qed.

(** C8: two annotation values ["<namespace>/<certificate-name>"] with the
    same certificate name resolve alike against the same map, whatever
    their namespaces are. *)
Theorem secretFromCertNN_namespace_irrelevant
    (certSecretNames : gmap string string) (ns1 ns2 certName : string) :
  hasByte "/" ns1 = false ->
  hasByte "/" ns2 = false ->
  secretFromCertNN certSecretNames (ns1 +:+ "/" +:+ certName) =
  secretFromCertNN certSecretNames (ns2 +:+ "/" +:+ certName).
Proof.
  intros H1 H2. change ("/" +:+ certName) with (String "/" certName).
  by rewrite !secretFromCertNN_decode.
Qed.

Lemma secretFromCertNN_namespace_irrelevant_witness :
  secretFromCertNN {["c1" := "s1"]} "capi-system/c1" =
  secretFromCertNN {["c1" := "s1"]} "other-ns/c1".
Proof.
  apply (secretFromCertNN_namespace_irrelevant {["c1" := "s1"]}
           "capi-system" "other-ns" "c1"); reflexivity.
Defined.

(** ** findWebhookServiceSecretName *)

Lemma injectionKinds_cases (k : string) :
  k ∈ injectionKinds ->
  k = "CustomResourceDefinition" \/ k = "MutatingWebhookConfiguration" \/
  k = "ValidatingWebhookConfiguration".
Proof. unfold injectionKinds. rewrite !elem_of_cons, elem_of_nil. tauto. Qed.

Lemma collectCertificate_Ok (obj : Unstructured) (m m' : gmap string string) :
  collectCertificate m obj = Ok m' ->
  m' = if bool_decide (GetKind obj = "Certificate") then
         match content obj with
         | CertificateSpec s => <[GetName obj := s]> m
         | _ => m
         end
       else m.
Proof.
  unfold collectCertificate, convertCertificate.
  case_bool_decide; [|by intros [= ->]].
  destruct (content obj); simpl; try done. by intros [= ->].
Qed.

Lemma collectCertificate_bindings (objs : list Unstructured)
    (m certs : gmap string string) :
  forRange collectCertificate m objs = Ok certs ->
  certs =
  foldl (fun m obj =>
           if bool_decide (GetKind obj = "Certificate") then
             match content obj with
             | CertificateSpec s => <[GetName obj := s]> m
             | _ => m
             end
           else m) m objs.
Proof.
  revert m. induction objs as [|obj objs IH]; intros m; simpl.
  - by intros [= ->].
  - destruct (collectCertificate m obj) as [m'|] eqn:E; simpl; [|done].
    apply collectCertificate_Ok in E as ->. apply IH.
Qed.

Lemma collectCertificate_Fail (objs : list Unstructured)
    (m : gmap string string) (e : panic) :
  forRange collectCertificate m objs = Fail e -> e = ConvertError.
Proof.
  intros (s & obj & _ & H)%forRange_Fail_inv. revert H.
  unfold collectCertificate. case_bool_decide; [|done].
  destruct (convertCertificate obj); simpl; [done|]. by intros [= <-].
Qed.

Lemma collectCertificate_decodes (objs : list Unstructured) (m : gmap string string) :
  Forall decodes objs -> exists certs, forRange collectCertificate m objs = Ok certs.
Proof.
  intros Hd. apply forRange_all_Ok. intros s obj Hobj.
  rewrite Forall_forall in Hd. destruct (Hd obj Hobj) as (Hc & _).
  unfold collectCertificate. case_bool_decide; [|by eexists].
  destruct (Hc ltac:(done)) as [cert ->]. by eexists.
Qed.

(** A resolved annotation makes [secretFromCertNN] answer with the secret. *)
Lemma secretFromCertNN_resolves (bindings : gmap string string) (certNN : string) :
  resolves bindings certNN ->
  exists secretName, secretFromCertNN bindings certNN = Ok (secretName, true).
Proof.
  intros (cn & sn & Hcn & Hsn & Hne). exists sn.
  unfold secretFromCertNN, index. rewrite Hcn. simpl. rewrite Hsn.
  by rewrite bool_decide_false.
Qed.

Lemma recordService_unresolved (certs acc anns : gmap string string)
    (svc : result string) (certNN certName : string) :
  anns !! injectCAFrom = Some certNN ->
  Split certNN "/" !! 1%nat = Some certName ->
  certs !! certName = None \/ certs !! certName = Some "" ->
  recordService certs acc anns svc = Fail (CantFindSecret certNN).
Proof.
  intros Ha Hs Hc. unfold recordService, secretFromCertNN, index.
  rewrite Ha, Hs. simpl. by destruct Hc as [-> | ->].
Qed.

Lemma recordService_noSep (certs acc anns : gmap string string)
    (svc : result string) (certNN : string) :
  anns !! injectCAFrom = Some certNN ->
  hasByte "/" certNN = false ->
  recordService certs acc anns svc = Fail IndexOutOfRange.
Proof.
  intros Ha Hs. unfold recordService. rewrite Ha.
  by rewrite secretFromCertNN_noSep.
Qed.

Lemma recordService_CantFindSecret (certs acc anns : gmap string string)
    (svc : result string) (v : string) :
  (forall e, svc = Fail e -> e <> CantFindSecret v) ->
  recordService certs acc anns svc = Fail (CantFindSecret v) ->
  hasByte "/" v = true.
Proof.
  intros Hsvc. unfold recordService.
  destruct (anns !! injectCAFrom) as [certNN|]; [|done].
  destruct (secretFromCertNN certs certNN) as [[sn ok]|e] eqn:E; simpl.
  - destruct ok.
    + destruct svc as [x|e]; simpl; [done|]. intros [= ->]. by destruct (Hsvc _ eq_refl).
    + intros [= ->]. by eapply secretFromCertNN_Ok_sep.
  - intros [= ->]. revert E. unfold secretFromCertNN, index.
    destruct (Split certNN "/" !! 1%nat) as [cn|]; simpl; [|done].
    destruct (certs !! cn); [case_bool_decide|]; done.
Qed.

Lemma collectService_injection (certs acc : gmap string string) (obj : Unstructured) :
  GetKind obj ∈ injectionKinds ->
  collectService certs acc obj =
  match content obj with
  | CRDSpec svc =>
      if bool_decide (GetKind obj = "CustomResourceDefinition")
      then recordService certs acc (GetAnnotations obj) (deref svc)
      else Fail ConvertError
  | WebhooksSpec ws =>
      if bool_decide (GetKind obj = "CustomResourceDefinition")
      then Fail ConvertError
      else recordService certs acc (GetAnnotations obj) (w ← index ws 0; deref w)
  | _ => Fail ConvertError
  end.
Proof.
  intros Hk%injectionKinds_cases. unfold collectService.
  unfold convertCRD, convertWebhookConfiguration.
  destruct Hk as [Hk|[Hk|Hk]]; rewrite Hk; simpl; by destruct (content obj).
Qed.

Lemma collectService_other (certs acc : gmap string string) (obj : Unstructured) :
  GetKind obj ∉ injectionKinds -> collectService certs acc obj = Ok acc.
Proof.
  unfold injectionKinds. rewrite !not_elem_of_cons. intros (H1 & H2 & H3 & _).
  unfold collectService. by rewrite !bool_decide_false.
Qed.

Lemma collectService_unresolved (certs acc : gmap string string)
    (obj : Unstructured) (certNN certName : string) :
  GetKind obj ∈ injectionKinds ->
  GetAnnotations obj !! injectCAFrom = Some certNN ->
  Split certNN "/" !! 1%nat = Some certName ->
  certs !! certName = None \/ certs !! certName = Some "" ->
  (exists e, collectService certs acc obj = Fail e) /\
  (decodes obj -> collectService certs acc obj = Fail (CantFindSecret certNN)).
Proof.
  intros Hk Ha Hs Hc. rewrite collectService_injection by done.
  pose proof (injectionKinds_cases _ Hk) as Hcases.
  unfold decodes, convertCRD, convertWebhookConfiguration.
  destruct (content obj); try case_bool_decide;
    try (erewrite recordService_unresolved by done);
    (split; [by eexists|]); try done.
  all: intros (_ & H1 & H2 & H3);
    destruct Hcases as [Hc'|[Hc'|Hc']];
    solve [ by destruct (H1 Hc') | by destruct (H2 Hc') | by destruct (H3 Hc')
          | congruence ].
Qed.

Lemma collectService_noSep (certs acc : gmap string string)
    (obj : Unstructured) (certNN : string) :
  GetKind obj ∈ injectionKinds ->
  GetAnnotations obj !! injectCAFrom = Some certNN ->
  hasByte "/" certNN = false ->
  (exists e, collectService certs acc obj = Fail e) /\
  (decodes obj -> collectService certs acc obj = Fail IndexOutOfRange).
Proof.
  intros Hk Ha Hs. rewrite collectService_injection by done.
  pose proof (injectionKinds_cases _ Hk) as Hcases.
  unfold decodes, convertCRD, convertWebhookConfiguration.
  destruct (content obj); try case_bool_decide;
    try (erewrite recordService_noSep by done);
    (split; [by eexists|]); try done.
  all: intros (_ & H1 & H2 & H3);
    destruct Hcases as [Hc|[Hc|Hc]];
    solve [ by destruct (H1 Hc) | by destruct (H2 Hc) | by destruct (H3 Hc)
          | congruence ].
Qed.

Lemma collectService_CantFindSecret (certs acc : gmap string string)
    (obj : Unstructured) (v : string) :
  collectService certs acc obj = Fail (CantFindSecret v) -> hasByte "/" v = true.
Proof.
  destruct (decide (GetKind obj ∈ injectionKinds)) as [Hk|Hk].
  - rewrite collectService_injection by done.
    destruct (content obj); try case_bool_decide; try done.
    all: apply recordService_CantFindSecret.
    + intros e. by destruct conversionService; intros [= <-].
    + intros e. destruct webhooks as [|[w|] ws]; by intros [= <-].
  - by rewrite collectService_other.
Qed.

Lemma collectService_resolved (certs acc : gmap string string) (obj : Unstructured) :
  decodes obj ->
  (GetKind obj ∈ injectionKinds -> forall certNN,
     GetAnnotations obj !! injectCAFrom = Some certNN ->
     resolves certs certNN /\ is_Some (webhookService obj)) ->
  exists acc', collectService certs acc obj = Ok acc'.
Proof.
  intros (_ & H1 & H2 & H3) Hr.
  destruct (decide (GetKind obj ∈ injectionKinds)) as [Hk|Hk];
    [|rewrite collectService_other by done; by eexists].
  specialize (Hr Hk). rewrite collectService_injection by done.
  assert (forall svc, (is_Some (webhookService obj) -> exists s, svc = Ok s) ->
            exists acc', recordService certs acc (GetAnnotations obj) svc = Ok acc')
    as Hrec.
  { intros svc Hsvc. unfold recordService.
    destruct (GetAnnotations obj !! injectCAFrom) as [certNN|]; [|by eexists].
    destruct (Hr certNN eq_refl) as [[sn ->]%(secretFromCertNN_resolves) Hs].
    simpl. destruct (Hsvc Hs) as [s ->]. by eexists. }
  unfold webhookService, convertCRD, convertWebhookConfiguration in *.
  apply injectionKinds_cases in Hk.
  destruct (content obj) as [| svc | ws | |]; try case_bool_decide.
  all: try (destruct Hk as [Hc|[Hc|Hc]];
            first [ by destruct (H1 Hc) as [? [=]]
                  | by destruct (H2 Hc) as [? [=]]
                  | by destruct (H3 Hc) as [? [=]]
                  | congruence ]).
  - apply Hrec. intros [s ->]. by eexists.
  - apply Hrec. intros [s Hs]. destruct ws as [|w ws]; [done|].
    simpl in *. subst w. by eexists.
Qed.

Lemma findWebhookServiceSecretName_first_pass (objs : list Unstructured)
    (r : result (gmap string string)) :
  findWebhookServiceSecretName objs = r ->
  (r = Fail ConvertError /\ forRange collectCertificate ∅ objs = Fail ConvertError) \/
  (forRange collectCertificate ∅ objs = Ok (certificateBindings objs) /\
   r = forRange (collectService (certificateBindings objs)) ∅ objs).
Proof.
  unfold findWebhookServiceSecretName. intros <-.
  destruct (forRange collectCertificate ∅ objs) as [certs|e] eqn:E; simpl.
  - right. apply collectCertificate_bindings in E as ->. by split.
  - left. apply collectCertificate_Fail in E as ->. by split.
Qed.

(** The resolver stops at the first object whose turn of the second loop
    fails, when every object decodes and no earlier one carries the
    annotation. *)
Lemma findWebhookServiceSecretName_stops (pre post : list Unstructured)
    (obj : Unstructured) (e : panic) :
  Forall decodes (pre ++ obj :: post) ->
  Forall (fun o => GetAnnotations o !! injectCAFrom = None) pre ->
  (forall acc,
     collectService (certificateBindings (pre ++ obj :: post)) acc obj = Fail e) ->
  findWebhookServiceSecretName (pre ++ obj :: post) = Fail e.
Proof.
  intros Hd Hpre Hobj.
  destruct (findWebhookServiceSecretName_first_pass (pre ++ obj :: post) _ eq_refl)
    as [[_ Hf]|[_ ->]].
  - destruct (collectCertificate_decodes _ ∅ Hd) as [certs Hc]. congruence.
  - rewrite forRange_app.
    destruct (forRange_all_Ok
                (collectService (certificateBindings (pre ++ obj :: post))) ∅ pre)
      as [acc ->].
    { intros acc o Ho. apply collectService_resolved.
      - rewrite Forall_forall in Hd. apply Hd. apply elem_of_app. by left.
      - rewrite Forall_forall in Hpre. intros _ v Hv.
        rewrite (Hpre o Ho) in Hv. done. }
    simpl. by rewrite Hobj.
Qed.

(** C2 (as amended): an injection annotation on a CRD or webhook
    configuration whose certificate name is unbound, or bound to the
    empty secret name, makes the resolver fail, and with the "can't find
    secret" panic for that annotation when the objects decode and no
    earlier object carries the annotation; and when every object decodes
    into the type of its kind and every such annotation resolves on an
    object that names its webhook service, the resolver returns a
    mapping. *)
Theorem findWebhookServiceSecretName_integrity (objs : list Unstructured) :
  (forall obj certNN certName,
     obj ∈ objs ->
     GetKind obj ∈ injectionKinds ->
     GetAnnotations obj !! injectCAFrom = Some certNN ->
     Split certNN "/" !! 1%nat = Some certName ->
     certificateBindings objs !! certName = None \/
     certificateBindings objs !! certName = Some "" ->
     exists e, findWebhookServiceSecretName objs = Fail e) /\
  (forall pre obj post certNN certName,
     objs = pre ++ obj :: post ->
     Forall decodes objs ->
     Forall (fun o => GetAnnotations o !! injectCAFrom = None) pre ->
     GetKind obj ∈ injectionKinds ->
     GetAnnotations obj !! injectCAFrom = Some certNN ->
     Split certNN "/" !! 1%nat = Some certName ->
     certificateBindings objs !! certName = None \/
     certificateBindings objs !! certName = Some "" ->
     findWebhookServiceSecretName objs = Fail (CantFindSecret certNN)) /\
  (Forall decodes objs ->
   (forall obj certNN,
      obj ∈ objs ->
      GetKind obj ∈ injectionKinds ->
      GetAnnotations obj !! injectCAFrom = Some certNN ->
      resolves (certificateBindings objs) certNN /\ is_Some (webhookService obj)) ->
   exists serviceSecretNames,
     findWebhookServiceSecretName objs = Ok serviceSecretNames).
Proof.
  split; [|split].
  - intros obj certNN certName Hobj Hk Ha Hs Hc.
    destruct (findWebhookServiceSecretName_first_pass objs _ eq_refl)
      as [[-> _]|[_ ->]]; [by eexists|].
    apply forRange_elem_fails with obj; [done|]. intros acc.
    by eapply collectService_unresolved.
  - intros pre obj post certNN certName -> Hd Hpre Hk Ha Hs Hc.
    apply findWebhookServiceSecretName_stops; [done|done|]. intros acc.
    apply (collectService_unresolved _ acc obj certNN certName Hk Ha Hs Hc).
    apply Forall_app in Hd as [_ Hd]. by apply Forall_cons in Hd as [Hd _].
  - intros Hd Hr.
    destruct (findWebhookServiceSecretName_first_pass objs _ eq_refl)
      as [[_ Hf]|[_ ->]].
    + destruct (collectCertificate_decodes objs ∅ Hd) as [certs Hc]. congruence.
    + apply forRange_all_Ok. intros acc obj Hobj.
      apply collectService_resolved.
      * rewrite Forall_forall in Hd. by apply Hd.
      * intros Hk certNN Ha. by apply Hr.
Qed.

Ltac elem_cases H :=
  rewrite ?elem_of_cons, ?elem_of_nil in H;
  repeat (destruct H as [H|H]); try contradiction; subst.

Ltac not_injection H :=
  apply injectionKinds_cases in H; destruct H as [H|[H|H]]; discriminate H.

Ltac decodes_sample :=
  unfold decodes; repeat split; intros H; try discriminate H; by eexists.

Lemma findWebhookServiceSecretName_integrity_witness :
  (exists e, findWebhookServiceSecretName [brokenCert; danglingCRD] = Fail e) /\
  findWebhookServiceSecretName [sampleCert; danglingCRD]
    = Fail (CantFindSecret "ns/missing") /\
  (exists m, findWebhookServiceSecretName [sampleCert; sampleCRD; sampleService] = Ok m).
Proof.
  split; [|split].
  - apply (proj1 (findWebhookServiceSecretName_integrity [brokenCert; danglingCRD])
             danglingCRD "ns/missing" "missing").
    + repeat constructor.
    + repeat constructor.
    + reflexivity.
    + reflexivity.
    + left. reflexivity.
  - apply (proj1 (proj2 (findWebhookServiceSecretName_integrity
                           [sampleCert; danglingCRD]))
             [sampleCert] danglingCRD [] "ns/missing" "missing").
    + reflexivity.
    + repeat constructor; decodes_sample.
    + repeat constructor.
    + repeat constructor.
    + reflexivity.
    + reflexivity.
    + left. reflexivity.
  - apply (proj2 (proj2 (findWebhookServiceSecretName_integrity
                           [sampleCert; sampleCRD; sampleService]))).
    + repeat constructor; decodes_sample.
    + intros obj certNN Hobj Hk Ha. elem_cases Hobj; try not_injection Hk.
      vm_compute in Ha. injection Ha as <-. split; [|by eexists].
      exists "c1", "s1". split; [reflexivity|split; [reflexivity|discriminate]].
Defined.

(** C2 as stated fails in its converse half: every injection annotation
    of these sets resolves to a non-empty secret name, and the resolver
    still stops, at [Webhooks[0]] of an empty list in the first set and
    at the conversion of a Certificate in the second. *)
Lemma findWebhookServiceSecretName_converse_counterexample :
  (let objs := [sampleCert; emptyMWC] in
   (forall obj certNN,
      obj ∈ objs -> GetKind obj ∈ injectionKinds ->
      GetAnnotations obj !! injectCAFrom = Some certNN ->
      resolves (certificateBindings objs) certNN) /\
   findWebhookServiceSecretName objs = Fail IndexOutOfRange) /\
  (let objs := [brokenCert; sampleCert; sampleCRD] in
   (forall obj certNN,
      obj ∈ objs -> GetKind obj ∈ injectionKinds ->
      GetAnnotations obj !! injectCAFrom = Some certNN ->
      resolves (certificateBindings objs) certNN) /\
   findWebhookServiceSecretName objs = Fail ConvertError).
Proof.
  split; simpl; (split; [|reflexivity]).
  all: intros obj certNN Hobj Hk Ha; elem_cases Hobj; try not_injection Hk.
  all: vm_compute in Ha; injection Ha as <-.
  all: exists "c1", "s1"; split; [reflexivity|split; [reflexivity|discriminate]].
Qed.

(** C10: an annotation value without "/" makes the decode step index a
    one-field split at 1: [secretFromCertNN] panics with an index out of
    range instead of answering "not found", it returns exactly on the
    values that contain a "/", and a resolver run over a set with such an
    annotation never ends in the "can't find secret" panic for it: it
    ends in the index panic as soon as the objects decode and no earlier
    object carries the annotation. *)
Theorem secretFromCertNN_separator_required :
  (forall certs certNN,
     hasByte "/" certNN = false ->
     secretFromCertNN certs certNN = Fail IndexOutOfRange) /\
  (forall certs certNN,
     hasByte "/" certNN = true ->
     exists r, secretFromCertNN certs certNN = Ok r) /\
  (forall objs obj certNN,
     obj ∈ objs ->
     GetKind obj ∈ injectionKinds ->
     GetAnnotations obj !! injectCAFrom = Some certNN ->
     hasByte "/" certNN = false ->
     exists e, findWebhookServiceSecretName objs = Fail e /\
               e <> CantFindSecret certNN) /\
  (forall pre obj post certNN,
     Forall decodes (pre ++ obj :: post) ->
     Forall (fun o => GetAnnotations o !! injectCAFrom = None) pre ->
     GetKind obj ∈ injectionKinds ->
     GetAnnotations obj !! injectCAFrom = Some certNN ->
     hasByte "/" certNN = false ->
     findWebhookServiceSecretName (pre ++ obj :: post) = Fail IndexOutOfRange).
Proof.
  split; [exact secretFromCertNN_noSep|].
  split; [exact secretFromCertNN_sep|].
  split.
  - intros objs obj certNN Hobj Hk Ha Hs.
    destruct (findWebhookServiceSecretName_first_pass objs _ eq_refl)
      as [[-> _]|[_ ->]]; [by eexists|].
    destruct (forRange_elem_fails (collectService (certificateBindings objs))
                ∅ objs obj Hobj) as [e He].
    { intros acc. by eapply collectService_noSep. }
    exists e. split; [done|]. intros ->.
    apply forRange_Fail_inv in He as (acc & o & _ & Ho).
    apply collectService_CantFindSecret in Ho. congruence.
  - intros pre obj post certNN Hd Hpre Hk Ha Hs.
    apply findWebhookServiceSecretName_stops; [done|done|]. intros acc.
    apply (collectService_noSep _ acc obj certNN Hk Ha Hs).
    apply Forall_app in Hd as [_ Hd]. by apply Forall_cons in Hd as [Hd _].
Qed.

Lemma secretFromCertNN_separator_required_witness :
  secretFromCertNN {["c1" := "s1"]} "c1" = Fail IndexOutOfRange /\
  (exists r, secretFromCertNN {["c1" := "s1"]} "ns/c1" = Ok r) /\
  (exists e, findWebhookServiceSecretName [danglingCRD; bareCRD] = Fail e /\
             e <> CantFindSecret "c1") /\
  findWebhookServiceSecretName [sampleCert; bareCRD; sampleService]
  = Fail IndexOutOfRange.
Proof.
  destruct secretFromCertNN_separator_required as (H1 & H2 & H3 & H4).
  split; [by apply H1|]. split; [by apply H2|]. split.
  - apply (H3 [danglingCRD; bareCRD] bareCRD "c1").
    + repeat constructor.
    + repeat constructor.
    + reflexivity.
    + reflexivity.
  - apply (H4 [sampleCert] bareCRD [sampleService] "c1").
    + repeat constructor; decodes_sample.
    + repeat constructor.
    + repeat constructor.
    + reflexivity.
    + reflexivity.
Defined.

(** ** certManagerToServiceCA *)

Lemma rewriteStep_app (m : gmap string string) (acc : list Unstructured)
    (obj : Unstructured) :
  rewriteStep m acc obj = acc ++ option_list (rewriteObject m obj).
Proof.
  unfold rewriteObject, rewriteStep.
  repeat case_bool_decide; simpl;
    repeat (match goal with |- context [match ?x with _ => _ end] => destruct x end);
    simpl; by rewrite ?app_nil_r.
Qed.

Lemma rewriteStep_foldl (m : gmap string string) (objs acc : list Unstructured) :
  foldl (rewriteStep m) acc objs = acc ++ omap (rewriteObject m) objs.
Proof.
  revert acc. induction objs as [|obj objs IH]; intros acc; simpl.
  - by rewrite app_nil_r.
  - rewrite IH, rewriteStep_app, <- app_assoc. f_equal.
    by destruct (rewriteObject m obj).
Qed.

Lemma certManagerToServiceCA_Ok (objs : list Unstructured) (m : gmap string string) :
  findWebhookServiceSecretName objs = Ok m ->
  certManagerToServiceCA objs = Ok (omap (rewriteObject m) objs).
Proof.
  intros H. unfold certManagerToServiceCA. rewrite H. simpl.
  by rewrite rewriteStep_foldl.
Qed.

Lemma GetAnnotations_SetAnnotations (obj : Unstructured) (anns : gmap string string) :
  GetAnnotations (SetAnnotations obj anns) = anns.
Proof. reflexivity. Qed.

Lemma rewriteObject_rewrites (m : gmap string string) (obj : Unstructured) :
  rewrites m obj (rewriteObject m obj).
Proof.
  unfold rewriteObject, rewriteStep.
  destruct (decide (GetKind obj ∈ injectionKinds)) as [Hi|Hi].
  { rewrite bool_decide_true by done.
    destruct (GetAnnotations obj !! injectCAFrom) as [certNN|] eqn:Ha; simpl.
    - eapply rewrites_swap; [done|exact Ha|by repeat split|..];
        rewrite ?GetAnnotations_SetAnnotations.
      + apply lookup_delete_eq.
      + by rewrite lookup_delete_ne, lookup_insert_eq.
      + intros k H1 H2. by rewrite lookup_delete_ne, lookup_insert_ne.
    - by apply rewrites_unannotated. }
  rewrite bool_decide_false by done.
  destruct (decide (GetKind obj = "Service")) as [Hs|Hs].
  { rewrite bool_decide_true by done.
    destruct (m !! GetName obj) as [secret|] eqn:Hm; simpl.
    - eapply rewrites_service; [done|exact Hm|by repeat split|..];
        rewrite ?GetAnnotations_SetAnnotations.
      + apply lookup_insert_eq.
      + intros k Hk. by rewrite lookup_insert_ne.
    - by apply rewrites_service_unmatched. }
  rewrite bool_decide_false by done.
  case_bool_decide; simpl.
  - by apply rewrites_dropped.
  - by apply rewrites_other.
Qed.

Lemma omap_id_fmap {A B} (f : A -> option B) (l : list A) :
  omap id (f <$> l) = omap f l.
Proof. induction l as [|x l IH]; csimpl; [done|]. by rewrite IH. Qed.

(** C1: when the resolver returns the mapping [serviceSecretNames], the
    rewrite returns the objects of the input in their order, each
    treated by its kind: the injection annotation of a CRD or webhook
    configuration swapped for the inject-cabundle one, a Service named in
    the mapping given the serving-cert annotation with the resolved
    secret, Certificate, Issuer and Namespace objects left out, and
    everything else as it was. *)
Theorem certManagerToServiceCA_rewrites (objs : list Unstructured)
    (serviceSecretNames : gmap string string) :
  findWebhookServiceSecretName objs = Ok serviceSecretNames ->
  exists outs : list (option Unstructured),
    Forall2 (rewrites serviceSecretNames) objs outs /\
    certManagerToServiceCA objs = Ok (omap id outs).
Proof.
  intros H. exists (rewriteObject serviceSecretNames <$> objs). split.
  - apply Forall2_fmap_r, Forall_Forall2_diag, Forall_forall.
    intros obj _. apply rewriteObject_rewrites.
  - rewrite omap_id_fmap. by apply certManagerToServiceCA_Ok.
Qed.

Lemma certManagerToServiceCA_rewrites_witness :
  exists outs : list (option Unstructured),
    Forall2 (rewrites {["svc1" := "s1"]}) [sampleCert; sampleCRD; sampleService] outs /\
    certManagerToServiceCA [sampleCert; sampleCRD; sampleService] = Ok (omap id outs).
Proof.
  apply (certManagerToServiceCA_rewrites [sampleCert; sampleCRD; sampleService]
           {["svc1" := "s1"]}).
  reflexivity.
Defined.

(** The end-to-end example of the specification: the CRD gets the
    replacement annotation, the Service the serving-cert annotation, and
    the Certificate is dropped. *)
Example certManagerToServiceCA_end_to_end :
  findWebhookServiceSecretName [sampleCert; sampleCRD; sampleService]
    = Ok {["svc1" := "s1"]} /\
  certManagerToServiceCA [sampleCert; sampleCRD; sampleService] =
  Ok [SetAnnotations sampleCRD {[injectCABundle := "true"]};
      SetAnnotations sampleService {[servingCertSecretName := "s1"]}].
Proof. by split. Qed.

Example certManagerToServiceCA_dangling :
  certManagerToServiceCA [sampleCert; danglingCRD; sampleService]
  = Fail (CantFindSecret "ns/missing").
Proof. reflexivity. Qed.

(** ** splitRBACOut and filterOutIPAM *)

Section Split.

Variable setOpenShiftAnnotations : Unstructured -> bool -> Unstructured.

Lemma splitRBACOut_foldl (objs finalObjs rbacObjs : list Unstructured) :
  foldl (splitStep setOpenShiftAnnotations) (finalObjs, rbacObjs) objs =
  (finalObjs ++ filter (fun obj => GetKind obj ∉ rbacKinds) objs,
   rbacObjs ++
     ((fun obj => setOpenShiftAnnotations obj false) <$>
        filter (fun obj => GetKind obj ∈ rbacKinds) objs)).
Proof.
  revert finalObjs rbacObjs.
  induction objs as [|obj objs IH]; intros finalObjs rbacObjs; simpl.
  - by rewrite !app_nil_r.
  - rewrite !filter_cons.
    case_bool_decide; rewrite IH; repeat case_decide; try tauto.
    + by rewrite fmap_cons, <- app_assoc.
    + by rewrite <- app_assoc.
Qed.

End Split.

(** C6: [splitRBACOut] returns, as its second result, the objects of the
    five RBAC kinds in input order, each as [setOpenShiftAnnotations]
    called with [false] leaves it, and as its first result all other
    objects in input order. *)
Theorem splitRBACOut_partition
    (setOpenShiftAnnotations : Unstructured -> bool -> Unstructured)
    (objs : list Unstructured) :
  splitRBACOut setOpenShiftAnnotations objs =
  (filter (fun obj => GetKind obj ∉ rbacKinds) objs,
   (fun obj => setOpenShiftAnnotations obj false) <$>
     filter (fun obj => GetKind obj ∈ rbacKinds) objs).
Proof. unfold splitRBACOut. by rewrite splitRBACOut_foldl. Qed.

Example splitRBACOut_example :
  splitRBACOut sampleAnnotate [sampleService; sampleRole; ipamCRD]
  = ([sampleService; ipamCRD], [sampleAnnotate sampleRole false]).
Proof. reflexivity. Qed.

Lemma filterOutIPAM_foldl (mapUnicodeToLower : string -> string)
    (objs acc : list Unstructured) :
  foldl (fun finalObjs obj =>
           if bool_decide (GetKind obj = "CustomResourceDefinition")
              || negb (Contains (stringsToLower mapUnicodeToLower (GetName obj))
                         "ipam")
           then finalObjs ++ [obj] else finalObjs) acc objs =
  acc ++ filter (survivesIPAM mapUnicodeToLower) objs.
Proof.
  revert acc. induction objs as [|obj objs IH]; intros acc; simpl.
  - by rewrite app_nil_r.
  - rewrite IH, filter_cons.
    case_decide as Hs; unfold survivesIPAM in Hs;
      case_bool_decide as Hk; simpl;
      destruct (Contains _ _) eqn:Hc; simpl;
      try (exfalso; by intuition); by rewrite <- ?app_assoc.
Qed.

Lemma filterOutIPAM_filter (mapUnicodeToLower : string -> string)
    (objs : list Unstructured) :
  filterOutIPAM mapUnicodeToLower objs = filter (survivesIPAM mapUnicodeToLower) objs.
Proof. unfold filterOutIPAM. by rewrite filterOutIPAM_foldl. Qed.

(** On a name that is all ASCII the lower-casing is the byte folding,
    whatever the Unicode path does. *)
Lemma stringsToLower_ascii (mapUnicodeToLower : string -> string) (s : string) :
  isASCII s = true -> stringsToLower mapUnicodeToLower s = ToLower s.
Proof. unfold stringsToLower. by intros ->. Qed.

(** With a Unicode path that sends U+0130 to "i", as Go's does, the
    Service named U+0130 "PAM-controller" is removed for metal3. *)
Example filterOutIPAM_dotted_I :
  filterOutIPAM sampleMapToLower [dottedService; sampleService] = [sampleService] /\
  importStreams sampleAnnotate sampleMapToLower infraMetal3
    [dottedService; sampleService] = Ok ([sampleService], []).
Proof. by split. Qed.

(** C3: [filterOutIPAM] keeps, in input order, exactly the CRDs and the
    objects whose lower-cased name does not contain "ipam", the
    lower-casing being [strings.ToLower] with any Unicode path; and
    [importProviders] applies it to the core stream for the provider
    named "metal3" only. *)
Theorem filterOutIPAM_keeps_CRDs
    (setOpenShiftAnnotations : Unstructured -> bool -> Unstructured)
    (mapUnicodeToLower : string -> string)
    (p : provider) (objs : list Unstructured) :
  filterOutIPAM mapUnicodeToLower objs =
    filter (fun obj =>
              GetKind obj = "CustomResourceDefinition" \/
              Contains (stringsToLower mapUnicodeToLower (GetName obj)) "ipam"
              = false) objs /\
  (forall obj, obj ∈ objs -> GetKind obj = "CustomResourceDefinition" ->
               obj ∈ filterOutIPAM mapUnicodeToLower objs) /\
  (forall obj, GetKind obj <> "CustomResourceDefinition" ->
               Contains (stringsToLower mapUnicodeToLower (GetName obj)) "ipam"
               = true ->
               obj ∉ filterOutIPAM mapUnicodeToLower objs) /\
  (forall rewritten finalObjs rbacObjs,
     certManagerToServiceCA objs = Ok rewritten ->
     splitRBACOut setOpenShiftAnnotations rewritten = (finalObjs, rbacObjs) ->
     importStreams setOpenShiftAnnotations mapUnicodeToLower p objs =
     Ok (if bool_decide (name p = "metal3")
         then filterOutIPAM mapUnicodeToLower finalObjs
         else finalObjs, rbacObjs)).
Proof.
  split; [apply filterOutIPAM_filter|]. rewrite filterOutIPAM_filter.
  split; [|split].
  - intros obj Hobj Hk. apply list_elem_of_filter. split; [by left|done].
  - intros obj Hk Hc [[?|Hs] _]%list_elem_of_filter; [done|]. congruence.
  - intros rewritten finalObjs rbacObjs Hr Hs. unfold importStreams.
    rewrite Hr. simpl. rewrite Hs. by rewrite filterOutIPAM_filter.
Qed.

Lemma filterOutIPAM_keeps_CRDs_witness :
  ipamCRD ∈ filterOutIPAM sampleMapToLower [ipamDeployment; ipamCRD; sampleService] /\
  (ipamDeployment
     ∉ filterOutIPAM sampleMapToLower [ipamDeployment; ipamCRD; sampleService]) /\
  (dottedService ∉ filterOutIPAM sampleMapToLower [dottedService; ipamCRD]) /\
  importStreams sampleAnnotate sampleMapToLower infraMetal3
    [ipamDeployment; ipamCRD; sampleRole] =
    Ok ([ipamCRD], [sampleAnnotate sampleRole false]) /\
  importStreams sampleAnnotate sampleMapToLower coreClusterAPI
    [ipamDeployment; ipamCRD; sampleRole] =
    Ok ([ipamDeployment; ipamCRD], [sampleAnnotate sampleRole false]).
Proof.
  destruct (filterOutIPAM_keeps_CRDs sampleAnnotate sampleMapToLower infraMetal3
              [ipamDeployment; ipamCRD; sampleService]) as (_ & Hin & Hout & _).
  destruct (filterOutIPAM_keeps_CRDs sampleAnnotate sampleMapToLower infraMetal3
              [dottedService; ipamCRD]) as (_ & _ & Hdotted & _).
  destruct (filterOutIPAM_keeps_CRDs sampleAnnotate sampleMapToLower infraMetal3
              [ipamDeployment; ipamCRD; sampleRole]) as (_ & _ & _ & Hmetal3).
  destruct (filterOutIPAM_keeps_CRDs sampleAnnotate sampleMapToLower coreClusterAPI
              [ipamDeployment; ipamCRD; sampleRole]) as (_ & _ & _ & Hcore).
  split; [|split; [|split; [|split]]].
  - apply Hin; [repeat constructor|reflexivity].
  - apply Hout; [discriminate|reflexivity].
  - apply Hdotted; [discriminate|reflexivity].
  - exact (Hmetal3 [ipamDeployment; ipamCRD; sampleRole]
             [ipamDeployment; ipamCRD] [sampleAnnotate sampleRole false]
             eq_refl eq_refl).
  - exact (Hcore [ipamDeployment; ipamCRD; sampleRole]
             [ipamDeployment; ipamCRD] [sampleAnnotate sampleRole false]
             eq_refl eq_refl).
Defined.

(** ** The pipeline of importProviders *)

Lemma three_way_partition {A} (P Q : A -> Prop)
    `{!forall x, Decision (P x), !forall x, Decision (Q x)} (l : list A) :
  l ≡ₚ filter (fun x => ~ P x /\ ~ Q x) l ++ filter P l
        ++ filter (fun x => ~ P x /\ Q x) l.
Proof.
  induction l as [|x l IH]; [done|]. rewrite !filter_cons.
  repeat case_decide; try tauto.
  - simpl. by constructor.
  - simpl. rewrite <- Permutation_middle. by constructor.
  - rewrite app_assoc, <- Permutation_middle, <- app_assoc. by constructor.
Qed.

Lemma filter_omap_Forall2 {A B} (g : A -> option B) (R : A -> B -> Prop)
    (P : A -> Prop) (Q : B -> Prop)
    `{!forall a, Decision (P a), !forall b, Decision (Q b)} (l : list A) :
  (forall a b, g a = Some b -> (P a <-> Q b) /\ (P a -> R a b)) ->
  (forall a, g a = None -> ~ P a) ->
  Forall2 R (filter P l) (filter Q (omap g l)).
Proof.
  intros HSome HNone. induction l as [|a l IH]; csimpl; [constructor|].
  rewrite filter_cons. destruct (g a) as [b|] eqn:Hg.
  - destruct (HSome a b Hg) as [Hiff HR]. rewrite filter_cons.
    destruct (decide (P a)) as [HP|HP].
    + rewrite decide_True by tauto. constructor; [by apply HR|done].
    + by rewrite decide_False by tauto.
  - by rewrite decide_False by by apply HNone.
Qed.

Lemma Forall2_eq_inv {A} (l k : list A) : Forall2 eq l k -> l = k.
Proof. induction 1; congruence. Qed.

Ltac kinds_clash :=
  repeat match goal with
    | H : _ ∈ injectionKinds |- _ => unfold injectionKinds in H
    | H : _ ∈ skippedKinds |- _ => unfold skippedKinds in H
    | H : _ ∈ rbacKinds |- _ => unfold rbacKinds in H
    | H : ?k ∈ _ :: _ |- _ =>
        rewrite ?elem_of_cons, ?elem_of_nil in H;
        repeat (destruct H as [H|H]); try contradiction
    end;
  congruence.

Lemma rewrites_None (m : gmap string string) (obj : Unstructured) :
  rewrites m obj None -> GetKind obj ∈ skippedKinds.
Proof. by inversion 1. Qed.

Lemma rewrites_Some (m : gmap string string) (obj obj' : Unstructured) :
  rewrites m obj (Some obj') ->
  GetKind obj' = GetKind obj /\ GetName obj' = GetName obj /\
  (GetKind obj ∉ skippedKinds) /\
  (GetKind obj ∈ rbacKinds -> obj' = obj).
Proof.
  inversion 1; subst;
    repeat match goal with H : sameBody _ _ |- _ => destruct H as (? & ? & _) end;
    (split; [done|split; [done|split]]); try done;
    try (intros ?; kinds_clash).
Qed.

Lemma rewriteObject_Some (m : gmap string string) (obj obj' : Unstructured) :
  rewriteObject m obj = Some obj' ->
  rewrites m obj (Some obj') /\
  GetKind obj' = GetKind obj /\ GetName obj' = GetName obj /\
  (GetKind obj ∉ skippedKinds) /\
  (GetKind obj ∈ rbacKinds -> obj' = obj).
Proof.
  intros H. pose proof (rewriteObject_rewrites m obj) as Hr. rewrite H in Hr.
  split; [done|]. by apply rewrites_Some in Hr.
Qed.

Lemma rewriteObject_None (m : gmap string string) (obj : Unstructured) :
  rewriteObject m obj = None -> GetKind obj ∈ skippedKinds.
Proof.
  intros H. pose proof (rewriteObject_rewrites m obj) as Hr. rewrite H in Hr.
  by apply rewrites_None in Hr.
Qed.

Lemma rbac_after_rewrite (m : gmap string string) (objs : list Unstructured) :
  filter (fun obj => GetKind obj ∈ rbacKinds) (omap (rewriteObject m) objs) =
  rbacInputs objs.
Proof.
  symmetry. apply Forall2_eq_inv. apply filter_omap_Forall2.
  - intros a b (_ & Hk & _ & _ & Heq)%rewriteObject_Some. rewrite Hk.
    split; [done|]. intros Ha. by rewrite Heq.
  - intros a Ha%rewriteObject_None Hr. kinds_clash.
Qed.

Lemma core_after_rewrite (mapUnicodeToLower : string -> string)
    (m : gmap string string) (p : provider) (objs : list Unstructured) :
  Forall2 (fun obj obj' => rewrites m obj (Some obj'))
    (coreInputs mapUnicodeToLower p objs)
    (filter (fun obj =>
               (name p = "metal3" -> survivesIPAM mapUnicodeToLower obj) /\
               GetKind obj ∉ rbacKinds)
       (omap (rewriteObject m) objs)).
Proof.
  apply filter_omap_Forall2.
  - intros a b (Hr & Hk & Hn & Hs & _)%rewriteObject_Some.
    split; [|done]. unfold namedDrop, survivesIPAM. rewrite Hk, Hn.
    destruct (Contains (stringsToLower mapUnicodeToLower (GetName a)) "ipam");
      destruct (decide (GetKind a = "CustomResourceDefinition"));
      destruct (decide (name p = "metal3")); intuition congruence.
  - intros a Ha%rewriteObject_None [_ Hd]. apply Hd. by left.
Qed.

(** C7: when the resolver returns, the pipeline returns two streams, and
    the input is a rearrangement of three sub-sequences of its own which
    do not share an occurrence: the inputs of the core stream, which
    correspond one to one and in order to the objects of the final core
    stream; the inputs of the rbac stream, which correspond one to one
    and in order to its objects; and the dropped objects, each of which
    is a Certificate, an Issuer or a Namespace or, for metal3, a
    non-CRD object with "ipam" in its lower-cased name.  The lower-casing
    is [strings.ToLower] with any Unicode path. *)
Theorem importStreams_conservation
    (setOpenShiftAnnotations : Unstructured -> bool -> Unstructured)
    (mapUnicodeToLower : string -> string)
    (p : provider) (objs : list Unstructured)
    (serviceSecretNames : gmap string string) :
  findWebhookServiceSecretName objs = Ok serviceSecretNames ->
  objs ≡ₚ coreInputs mapUnicodeToLower p objs ++ rbacInputs objs
          ++ droppedInputs mapUnicodeToLower p objs /\
  Forall (namedDrop mapUnicodeToLower p) (droppedInputs mapUnicodeToLower p objs) /\
  exists finalObjs rbacObjs,
    importStreams setOpenShiftAnnotations mapUnicodeToLower p objs
    = Ok (finalObjs, rbacObjs) /\
    Forall2 (fun obj obj' => rewrites serviceSecretNames obj (Some obj'))
      (coreInputs mapUnicodeToLower p objs) finalObjs /\
    rbacObjs = (fun obj => setOpenShiftAnnotations obj false) <$> rbacInputs objs.
Proof.
  intros Hm. split; [|split].
  - apply (three_way_partition (fun obj => GetKind obj ∈ rbacKinds)
             (namedDrop mapUnicodeToLower p)).
  - apply Forall_forall. by intros obj [[_ Hd] _]%list_elem_of_filter.
  - unfold importStreams. rewrite (certManagerToServiceCA_Ok objs _ Hm). simpl.
    unfold splitRBACOut. rewrite splitRBACOut_foldl. simpl.
    rewrite rbac_after_rewrite.
    eexists _, _. split; [done|]. split; [|done].
    pose proof (core_after_rewrite mapUnicodeToLower serviceSecretNames p objs)
      as Hcore.
    case_bool_decide as Hp.
    + rewrite filterOutIPAM_filter, list_filter_filter.
      erewrite list_filter_iff; [exact Hcore|]. intros obj. simpl. tauto.
    + erewrite list_filter_iff; [exact Hcore|]. intros obj. simpl. tauto.
Qed.

Lemma importStreams_conservation_witness :
  [sampleCert; sampleCRD; sampleService; sampleRole; ipamDeployment; ipamCRD;
   dottedService]
  ≡ₚ [sampleCRD; sampleService; ipamCRD] ++ [sampleRole]
      ++ [sampleCert; ipamDeployment; dottedService] /\
  Forall (namedDrop sampleMapToLower infraMetal3)
    [sampleCert; ipamDeployment; dottedService] /\
  exists finalObjs rbacObjs,
    importStreams sampleAnnotate sampleMapToLower infraMetal3
      [sampleCert; sampleCRD; sampleService; sampleRole; ipamDeployment; ipamCRD;
       dottedService]
    = Ok (finalObjs, rbacObjs) /\
    Forall2 (fun obj obj' => rewrites {["svc1" := "s1"]} obj (Some obj'))
      [sampleCRD; sampleService; ipamCRD] finalObjs /\
    rbacObjs = [sampleAnnotate sampleRole false].
Proof.
  apply (importStreams_conservation sampleAnnotate sampleMapToLower infraMetal3
           [sampleCert; sampleCRD; sampleService; sampleRole; ipamDeployment; ipamCRD;
            dottedService]
           {["svc1" := "s1"]}).
  reflexivity.
Defined.

(** ** imageToKey *)

Lemma imageToKey_keyOfBareName (p : provider) (fullImage : string) :
  imageToKey p fullImage =
  keyOfBareName p (splitOn ":" (List.last (Split fullImage "/") "")).1.
Proof.
  unfold imageToKey, keyOfBareName. rewrite Split_cons. simpl.
  repeat case_bool_decide; try done.
  match goal with H : _ = "ip-address-manager" |- _ => by rewrite H end.
Qed.

Lemma stripTagOrDigest_tag (segment : string) :
  hasByte "@" segment = false ->
  stripTagOrDigest segment = (splitOn ":" segment).1.
Proof.
  induction segment as [|c s IH]; simpl; [done|].
  intros [Hc Hs]%orb_false_elim. rewrite Hc, orb_false_r.
  destruct (splitOn ":" s) as [h t]. simpl in IH.
  destruct (Ascii.eqb c ":"); simpl; [done|]. by rewrite IH.
Qed.

Lemma bareName_of_tagged (registry bare tag : string) :
  hasByte "/" bare = false ->
  hasByte ":" bare = false ->
  hasByte "/" tag = false ->
  (splitOn ":" (List.last
                  (Split (registry +:+ String "/" (bare +:+ String ":" tag)) "/")
                  "")).1 = bare.
Proof.
  intros Hb1 Hb2 Ht. rewrite Split_last_app, Split_noSep.
  - simpl. pose proof (Split_app_sep bare tag ":" Hb2) as H.
    rewrite Split_cons in H. by injection H.
  - clear Hb2. induction bare as [|c b IH]; simpl in *.
    + done.
    + apply orb_false_elim in Hb1 as [-> Hb1]. by apply IH.
Qed.

Lemma providerTypeName_infrastructure (p : provider) :
  ptype p = InfrastructureProviderType -> providerTypeName p = "infrastructure".
Proof. unfold providerTypeName. by intros ->. Qed.

(** C4 (as amended): the key is a function of the provider type, the
    provider name and the image reference.  The bare name is the trailing
    path segment cut at its first ":"; it is the name the specification
    describes whenever that segment has no "@" (a digest suffix is not
    stripped).  The bare name kube-rbac-proxy gives the key
    "kube-rbac-proxy", ip-address-manager gives
    "<type>-<name>:ip-address-manager", any other one
    "<type>-<name>:manager"; for the infrastructure provider metal3 these
    are "infrastructure-metal3:ip-address-manager" and
    "infrastructure-metal3:manager". *)
Theorem imageToKey_tagged :
  (forall p fullImage,
     imageToKey p fullImage =
     keyOfBareName p (splitOn ":" (List.last (Split fullImage "/") "")).1) /\
  (forall p fullImage,
     hasByte "@" (List.last (Split fullImage "/") "") = false ->
     imageToKey p fullImage = imageToKey_spec p fullImage) /\
  (forall p registry tag,
     hasByte "/" tag = false ->
     imageToKey p (registry +:+ "/kube-rbac-proxy:" +:+ tag) = "kube-rbac-proxy") /\
  (forall p registry tag,
     ptype p = InfrastructureProviderType -> name p = "metal3" ->
     hasByte "/" tag = false ->
     imageToKey p (registry +:+ "/ip-address-manager:" +:+ tag)
     = "infrastructure-metal3:ip-address-manager") /\
  (forall p fullImage,
     ptype p = InfrastructureProviderType -> name p = "metal3" ->
     (splitOn ":" (List.last (Split fullImage "/") "")).1 <> "kube-rbac-proxy" ->
     (splitOn ":" (List.last (Split fullImage "/") "")).1 <> "ip-address-manager" ->
     imageToKey p fullImage = "infrastructure-metal3:manager") /\
  imageToKey infraMetal3 "quay.io/foo/kube-rbac-proxy:v1" = "kube-rbac-proxy".
Proof.
  split; [exact imageToKey_keyOfBareName|]. split; [|split; [|split; [|split]]].
  - intros p fullImage H. rewrite imageToKey_keyOfBareName.
    unfold imageToKey_spec, bareName_spec. by rewrite stripTagOrDigest_tag.
  - intros p registry tag Ht. rewrite imageToKey_keyOfBareName.
    change (registry +:+ "/kube-rbac-proxy:" +:+ tag)
      with (registry +:+ String "/" ("kube-rbac-proxy" +:+ String ":" tag)).
    by rewrite bareName_of_tagged.
  - intros p registry tag Hp Hn Ht. rewrite imageToKey_keyOfBareName.
    change (registry +:+ "/ip-address-manager:" +:+ tag)
      with (registry +:+ String "/" ("ip-address-manager" +:+ String ":" tag)).
    rewrite bareName_of_tagged by done. unfold keyOfBareName. simpl.
    by rewrite providerTypeName_infrastructure, Hn.
  - intros p fullImage Hp Hn H1 H2. rewrite imageToKey_keyOfBareName.
    unfold keyOfBareName. rewrite !bool_decide_false by done.
    by rewrite providerTypeName_infrastructure, Hn.
  - reflexivity.
Qed.

Lemma imageToKey_tagged_witness :
  imageToKey coreClusterAPI "registry.k8s.io/cluster-api/cluster-api-controller:v1.1.0"
  = imageToKey_spec coreClusterAPI
      "registry.k8s.io/cluster-api/cluster-api-controller:v1.1.0" /\
  imageToKey coreClusterAPI "gcr.io/kubebuilder/kube-rbac-proxy:v0.8.0"
  = "kube-rbac-proxy" /\
  imageToKey infraMetal3 "quay.io/metal3-io/ip-address-manager:v1.1.0"
  = "infrastructure-metal3:ip-address-manager" /\
  imageToKey infraMetal3 "quay.io/metal3-io/cluster-api-provider-metal3:v1.1.0"
  = "infrastructure-metal3:manager".
Proof.
  destruct imageToKey_tagged as (_ & Hspec & Hproxy & Hipam & Hother & _).
  split; [|split; [|split]].
  - apply Hspec. reflexivity.
  - apply (Hproxy coreClusterAPI "gcr.io/kubebuilder" "v0.8.0"). reflexivity.
  - apply (Hipam infraMetal3 "quay.io/metal3-io" "v1.1.0"); reflexivity.
  - apply Hother; [reflexivity|reflexivity|discriminate|discriminate].
Defined.

(** C4 as stated fails on a digest reference: the specification's bare
    name is kube-rbac-proxy, whose key is "kube-rbac-proxy", while the
    code cuts the segment at ":" only, keeps "kube-rbac-proxy@sha256" and
    answers with the default key. *)
Lemma imageToKey_digest_counterexample :
  bareName_spec "quay.io/foo/kube-rbac-proxy@sha256:0f1e2d" = "kube-rbac-proxy" /\
  imageToKey_spec infraMetal3 "quay.io/foo/kube-rbac-proxy@sha256:0f1e2d"
  = "kube-rbac-proxy" /\
  imageToKey infraMetal3 "quay.io/foo/kube-rbac-proxy@sha256:0f1e2d"
  = "infrastructure-metal3:manager".
Proof. repeat split. Qed.

(** ** updateImages *)

Lemma recordImages_app (p : provider) (m : gmap string string) (l k : list string) :
  recordImages p m (l ++ k) = recordImages p (recordImages p m l) k.
Proof. apply foldl_app. Qed.

Lemma recordImages_untouched (p : provider) (m : gmap string string)
    (l : list string) (key : string) :
  Forall (fun image => imageToKey p image <> key) l ->
  recordImages p m l !! key = m !! key.
Proof.
  intros H. revert m. induction H as [|image l Hne _ IH]; intros m; simpl; [done|].
  rewrite IH. by apply lookup_insert_ne.
Qed.

Lemma recordImages_keeps (p : provider) (m : gmap string string)
    (l : list string) (key : string) :
  is_Some (m !! key) -> is_Some (recordImages p m l !! key).
Proof.
  revert m. induction l as [|image l IH]; intros m Hm; simpl; [done|].
  apply IH. rewrite lookup_insert_is_Some.
  destruct (decide (imageToKey p image = key)); [by left|by right].
Qed.

Lemma containerImagesOf_cons (obj : Unstructured) (objs : list Unstructured) :
  containerImagesOf (obj :: objs) = containerImagesOf [obj] ++ containerImagesOf objs.
Proof. unfold containerImagesOf. csimpl. by rewrite app_nil_r. Qed.

Lemma updateImagesObj_Ok (p : provider) (obj : Unstructured)
    (m m' : gmap string string) :
  updateImagesObj p m obj = Ok m' ->
  m' = recordImages p m (containerImagesOf [obj]).
Proof.
  unfold updateImagesObj, convertDeployment, containerImagesOf. csimpl.
  rewrite app_nil_r.
  case_bool_decide; [destruct (content obj)|]; simpl; try done; by intros [= ->].
Qed.

Lemma updateImages_Ok (p : provider) (objs : list Unstructured)
    (catalog out : gmap string string) :
  updateImages p catalog objs = Ok out ->
  out = recordImages p catalog (containerImagesOf objs).
Proof.
  unfold updateImages. revert catalog.
  induction objs as [|obj objs IH]; intros catalog; simpl.
  - by intros [= ->].
  - destruct (updateImagesObj p catalog obj) as [m'|] eqn:E; simpl; [|done].
    apply updateImagesObj_Ok in E as ->. intros ->%IH.
    by rewrite <- recordImages_app, <- containerImagesOf_cons.
Qed.

Lemma updateImages_decodes (p : provider) (objs : list Unstructured)
    (catalog : gmap string string) :
  (forall obj, obj ∈ objs -> GetKind obj = "Deployment" ->
               is_Some (convertDeployment obj)) ->
  exists out, updateImages p catalog objs = Ok out.
Proof.
  intros H. apply forRange_all_Ok. intros m obj Hobj. unfold updateImagesObj.
  case_bool_decide as Hk; [|by eexists].
  destruct (H obj Hobj Hk) as [dep ->]. by eexists.
Qed.

(** C5 (as amended): [updateImages] returns a catalog whenever the
    Deployment objects decode, and a catalog it returns maps the key of a
    container image to that image provided no later container of the run
    derives the same key (the last one wins), leaves every key that no
    container derives at its prior value, and keeps every prior key. *)
Theorem updateImages_merge (p : provider) (catalog : gmap string string)
    (objs : list Unstructured) :
  ((forall obj, obj ∈ objs -> GetKind obj = "Deployment" ->
                is_Some (convertDeployment obj)) ->
   exists out, updateImages p catalog objs = Ok out) /\
  (forall out,
     updateImages p catalog objs = Ok out ->
     (forall earlier image later,
        containerImagesOf objs = earlier ++ image :: later ->
        Forall (fun image' => imageToKey p image' <> imageToKey p image) later ->
        out !! imageToKey p image = Some image) /\
     (forall key,
        Forall (fun image => imageToKey p image <> key) (containerImagesOf objs) ->
        out !! key = catalog !! key) /\
     (forall key, is_Some (catalog !! key) -> is_Some (out !! key))).
Proof.
  split; [apply updateImages_decodes|].
  intros out ->%updateImages_Ok. split; [|split].
  - intros earlier image later -> Hlater.
    rewrite recordImages_app. simpl.
    rewrite recordImages_untouched by done. apply lookup_insert_eq.
  - intros key Hkey. by apply recordImages_untouched.
  - intros key. apply recordImages_keeps.
Qed.

Lemma updateImages_merge_witness :
  (exists out,
     updateImages coreClusterAPI {["kube-rbac-proxy" := "old"]} [twoContainers]
     = Ok out) /\
  updateImages coreClusterAPI {["kube-rbac-proxy" := "old"]} [twoContainers]
    = Ok {["kube-rbac-proxy" := "old";
           "core-cluster-api:manager" := "quay.io/capi/helper:v1"]} /\
  ({["kube-rbac-proxy" := "old";
     "core-cluster-api:manager" := "quay.io/capi/helper:v1"]} : gmap string string)
    !! imageToKey coreClusterAPI "quay.io/capi/helper:v1"
    = Some "quay.io/capi/helper:v1".
Proof.
  destruct (updateImages_merge coreClusterAPI {["kube-rbac-proxy" := "old"]}
              [twoContainers]) as [Hret Hout].
  split; [|split; [reflexivity|]].
  - apply Hret. intros obj Hobj _. elem_cases Hobj. by eexists.
  - destruct (Hout {["kube-rbac-proxy" := "old";
                     "core-cluster-api:manager" := "quay.io/capi/helper:v1"]}
                eq_refl) as (Hlast & _ & _).
    apply (Hlast ["quay.io/capi/controller:v1"] "quay.io/capi/helper:v1" []);
      [reflexivity|constructor].
Defined.

(** C5 as stated fails when two containers derive the same key: the key
    derived from the first image of this Deployment ends up bound to the
    image of the second. *)
Lemma updateImages_collision_counterexample :
  exists out,
    updateImages coreClusterAPI ∅ [twoContainers] = Ok out /\
    "quay.io/capi/controller:v1" ∈ containerImagesOf [twoContainers] /\
    out !! imageToKey coreClusterAPI "quay.io/capi/controller:v1"
    = Some "quay.io/capi/helper:v1".
Proof.
  eexists. split; [reflexivity|]. split; [repeat constructor|reflexivity].
Qed.

(** * Further properties of the code *)

(** ** The mapping the resolver returns *)

Section ForRangeInvariant.

Context {E A S : Type} (body : S -> A -> outcome E S).

Lemma forRange_invariant (I : S -> Prop) (s s' : S) (l : list A) :
  (forall s1 x s2, x ∈ l -> I s1 -> body s1 x = Ok s2 -> I s2) ->
  I s -> forRange body s l = Ok s' -> I s'.
Proof.
  revert s. induction l as [|x l IH]; intros s Hstep Hs; simpl.
  - by intros [= <-].
  - destruct (body s x) as [s1|e] eqn:Hb; simpl; [|done].
    apply IH.
    + intros s2 y s3 Hy. apply Hstep. by right.
    + eapply Hstep; [by left|exact Hs|exact Hb].
Qed.

Lemma forRange_Ok_each (s s' : S) (l : list A) (x : A) :
  forRange body s l = Ok s' -> x ∈ l -> exists s1 s2, body s1 x = Ok s2.
Proof.
  revert s. induction l as [|y l IH]; intros s; simpl.
  - intros _ Hx. by apply elem_of_nil in Hx.
  - destruct (body s y) as [s1|e] eqn:Hb; simpl; [|done].
    intros Hl [->|Hx]%elem_of_cons; [by eexists _, _|by eapply IH].
Qed.

Lemma forRange_skip (P : A -> Prop) `{!forall x, Decision (P x)} (s : S) (l : list A) :
  (forall s1 x, ~ P x -> body s1 x = Ok s1) ->
  forRange body s l = forRange body s (filter P l).
Proof.
  intros Hskip. revert s. induction l as [|x l IH]; intros s; [done|].
  rewrite filter_cons. destruct (decide (P x)) as [HP|HP]; simpl.
  - destruct (body s x); simpl; [apply IH|done].
  - rewrite Hskip by done. simpl. apply IH.
Qed.

End ForRangeInvariant.

Lemma certificateBindings_origin (objs : list Unstructured) (certName secret : string) :
  certificateBindings objs !! certName = Some secret ->
  exists cert, cert ∈ objs /\ GetKind cert = "Certificate" /\
               GetName cert = certName /\ content cert = CertificateSpec secret.
Proof.
  unfold certificateBindings.
  cut (forall m : gmap string string,
         foldl (fun m obj =>
                  if bool_decide (GetKind obj = "Certificate") then
                    match content obj with
                    | CertificateSpec s => <[GetName obj := s]> m
                    | _ => m
                    end
                  else m) m objs !! certName = Some secret ->
         m !! certName = Some secret \/
         exists cert, cert ∈ objs /\ GetKind cert = "Certificate" /\
                      GetName cert = certName /\ content cert = CertificateSpec secret).
  { intros H Hl. destruct (H ∅ Hl) as [He|He]; [|done]. by rewrite lookup_empty in He. }
  induction objs as [|obj objs IH]; intros m; simpl; [by left|].
  intros [Hm|(cert & Hin & Hc)]%IH.
  - case_bool_decide as Hk; [|by left].
    destruct (content obj) as [s| | | |] eqn:Hcont; try by left.
    destruct (decide (GetName obj = certName)) as [Hn|Hn].
    + rewrite Hn, lookup_insert_eq in Hm. injection Hm as ->.
      right. exists obj. split; [by left|done].
    + rewrite lookup_insert_ne in Hm by done. by left.
  - right. exists cert. split; [by right|done].
Qed.

(** What a successful turn of the second loop does to the mapping. *)
Lemma collectService_Ok (certs acc acc' : gmap string string) (obj : Unstructured) :
  collectService certs acc obj = Ok acc' ->
  (acc' = acc /\
   (GetKind obj ∈ injectionKinds -> GetAnnotations obj !! injectCAFrom = None)) \/
  (GetKind obj ∈ injectionKinds /\
   exists certNN certName secret svc,
     GetAnnotations obj !! injectCAFrom = Some certNN /\
     Split certNN "/" !! 1%nat = Some certName /\
     certs !! certName = Some secret /\ secret <> "" /\
     webhookService obj = Some svc /\
     acc' = <[svc := secret]> acc).
Proof.
  destruct (decide (GetKind obj ∈ injectionKinds)) as [Hk|Hk];
    [|rewrite collectService_other by done; intros [= <-]; by left].
  rewrite collectService_injection by done.
  assert (forall svc : result string,
            (forall s, svc = Ok s -> webhookService obj = Some s) ->
            recordService certs acc (GetAnnotations obj) svc = Ok acc' ->
            (acc' = acc /\
             (GetKind obj ∈ injectionKinds ->
              GetAnnotations obj !! injectCAFrom = None)) \/
            (GetKind obj ∈ injectionKinds /\
             exists certNN certName secret svc,
               GetAnnotations obj !! injectCAFrom = Some certNN /\
               Split certNN "/" !! 1%nat = Some certName /\
               certs !! certName = Some secret /\ secret <> "" /\
               webhookService obj = Some svc /\
               acc' = <[svc := secret]> acc)) as Hrec.
  { intros svc Hsvc. unfold recordService, secretFromCertNN, index.
    destruct (GetAnnotations obj !! injectCAFrom) as [certNN|];
      [|intros [= <-]; by left].
    destruct (Split certNN "/" !! 1%nat) as [cn|] eqn:Hcn; simpl; [|done].
    destruct (certs !! cn) as [secret|] eqn:Hs; simpl; [|done].
    case_bool_decide as Hne; simpl; [done|].
    destruct svc as [s|e]; simpl; [|done]. intros [= <-].
    right. split; [done|]. exists certNN, cn, secret, s.
    repeat split; try done. by apply Hsvc. }
  unfold webhookService in *.
  destruct (content obj) as [| svc | ws | |]; try case_bool_decide; try done.
  - apply Hrec. intros s. by destruct svc; intros [= <-].
  - apply Hrec. intros s. destruct ws as [|[w|] ws]; simpl; try done. by intros [= <-].
Qed.

(** X1: every entry [svc -> secret] of the mapping the resolver returns
    has a non-empty secret name that some Certificate of the set
    provisions, under the service of some annotated CRD or webhook
    configuration of the set. *)
Theorem findWebhookServiceSecretName_sound (objs : list Unstructured)
    (serviceSecretNames : gmap string string) (svc secret : string) :
  findWebhookServiceSecretName objs = Ok serviceSecretNames ->
  serviceSecretNames !! svc = Some secret ->
  secret <> "" /\
  (exists cert, cert ∈ objs /\ GetKind cert = "Certificate" /\
                content cert = CertificateSpec secret) /\
  (exists obj certNN, obj ∈ objs /\ GetKind obj ∈ injectionKinds /\
                      GetAnnotations obj !! injectCAFrom = Some certNN /\
                      webhookService obj = Some svc).
Proof.
  intros Hm. destruct (findWebhookServiceSecretName_first_pass objs _ Hm)
    as [[[=] _]|[_ Hloop]].
  symmetry in Hloop. revert svc secret.
  apply (forRange_invariant (collectService (certificateBindings objs))
           (fun acc => forall svc secret,
           acc !! svc = Some secret ->
           secret <> "" /\
           (exists cert, cert ∈ objs /\ GetKind cert = "Certificate" /\
                         content cert = CertificateSpec secret) /\
           (exists obj certNN, obj ∈ objs /\ GetKind obj ∈ injectionKinds /\
                               GetAnnotations obj !! injectCAFrom = Some certNN /\
                               webhookService obj = Some svc))
           ∅ serviceSecretNames objs); [| |exact Hloop].
  - intros acc obj acc' Hobj IH Hstep svc secret.
    apply collectService_Ok in Hstep
      as [[-> _]|(Hk & certNN & cn & s0 & svc0 & Ha & Hcn & Hs & Hne & Hsvc & ->)];
      [apply IH|].
    destruct (decide (svc0 = svc)) as [->|Hd].
    + rewrite lookup_insert_eq. intros [= <-]. split; [done|]. split.
      * apply certificateBindings_origin in Hs as (cert & ? & ? & _ & ?).
        by exists cert.
      * by exists obj, certNN.
    + rewrite lookup_insert_ne by done. apply IH.
  - intros svc secret. by rewrite lookup_empty.
Qed.

Lemma findWebhookServiceSecretName_sound_witness :
  "s1" <> "" /\
  (exists cert, cert ∈ [sampleCert; sampleCRD; sampleService] /\
                GetKind cert = "Certificate" /\
                content cert = CertificateSpec "s1") /\
  (exists obj certNN, obj ∈ [sampleCert; sampleCRD; sampleService] /\
                      GetKind obj ∈ injectionKinds /\
                      GetAnnotations obj !! injectCAFrom = Some certNN /\
                      webhookService obj = Some "svc1").
Proof.
  apply (findWebhookServiceSecretName_sound [sampleCert; sampleCRD; sampleService]
           {["svc1" := "s1"]} "svc1" "s1"); reflexivity.
Defined.

(** X2: when the resolver returns, the service of every annotated CRD or
    webhook configuration of the set is bound in the mapping, and the
    mapping is empty when none of them carries the annotation. *)
Theorem findWebhookServiceSecretName_complete (objs : list Unstructured)
    (serviceSecretNames : gmap string string) :
  findWebhookServiceSecretName objs = Ok serviceSecretNames ->
  (forall obj, obj ∈ objs -> GetKind obj ∈ injectionKinds ->
               is_Some (GetAnnotations obj !! injectCAFrom) ->
               exists svc, webhookService obj = Some svc /\
                           is_Some (serviceSecretNames !! svc)) /\
  ((forall obj, obj ∈ objs -> GetKind obj ∈ injectionKinds ->
                GetAnnotations obj !! injectCAFrom = None) ->
   serviceSecretNames = ∅).
Proof.
  intros Hm. destruct (findWebhookServiceSecretName_first_pass objs _ Hm)
    as [[[=] _]|[_ Hloop]].
  symmetry in Hloop. split.
  - intros obj Hobj Hk [certNN Ha].
    apply list_elem_of_split in Hobj as (pre & post & ->).
    rewrite forRange_app in Hloop.
    destruct (forRange _ ∅ pre) as [a1|] eqn:Hpre; simpl in Hloop; [|done].
    destruct (collectService _ a1 obj) as [a2|] eqn:Hstep; simpl in Hloop; [|done].
    apply collectService_Ok in Hstep
      as [[_ Hnone]|(_ & _ & _ & s0 & svc & _ & _ & _ & _ & Hsvc & ->)].
    { rewrite Hnone in Ha by done. done. }
    exists svc. split; [done|].
    apply (forRange_invariant
             (collectService (certificateBindings (pre ++ obj :: post)))
             (fun acc => is_Some (acc !! svc))
             (<[svc := s0]> a1) serviceSecretNames post); [| |exact Hloop].
    + intros acc o acc' _ IH Ho.
      apply collectService_Ok in Ho as [[-> _]|(_ & _ & _ & s1 & svc1 & _ & _ & _ & _ & _ & ->)];
        [done|].
      rewrite lookup_insert_is_Some. destruct (decide (svc1 = svc)); [by left|by right].
    + rewrite lookup_insert_eq. by eexists.
  - intros Hnone.
    apply (forRange_invariant (collectService (certificateBindings objs))
             (fun acc => acc = ∅) ∅ serviceSecretNames objs);
      [| |exact Hloop].
    + intros acc o acc' Ho -> Hstep.
      apply collectService_Ok in Hstep as [[-> _]|(Hk & certNN & _ & _ & _ & Ha & _)];
        [done|].
      by rewrite (Hnone o Ho Hk) in Ha.
    + done.
Qed.

Lemma findWebhookServiceSecretName_complete_witness :
  (exists svc, webhookService sampleCRD = Some svc /\
               is_Some (({["svc1" := "s1"]} : gmap string string) !! svc)) /\
  findWebhookServiceSecretName [sampleCert; ipamCRD; sampleService] = Ok ∅.
Proof.
  split.
  - apply (proj1 (findWebhookServiceSecretName_complete
                    [sampleCert; sampleCRD; sampleService] {["svc1" := "s1"]}
                    eq_refl) sampleCRD).
    + repeat constructor.
    + repeat constructor.
    + by eexists.
  - assert (exists m, findWebhookServiceSecretName
                        [sampleCert; ipamCRD; sampleService] = Ok m) as [m Hm]
      by (by eexists).
    rewrite Hm. f_equal.
    apply (proj2 (findWebhookServiceSecretName_complete _ m Hm)).
    intros obj Hobj Hk. elem_cases Hobj; try not_injection Hk. reflexivity.
Defined.

(** X3: the resolver has two passes, so where the Certificates stand in
    the set is irrelevant: moving them all to the front, in their order,
    does not change its result. *)
Theorem findWebhookServiceSecretName_certificates_first (objs : list Unstructured) :
  findWebhookServiceSecretName
    (filter (fun obj => GetKind obj = "Certificate") objs
     ++ filter (fun obj => GetKind obj <> "Certificate") objs)
  = findWebhookServiceSecretName objs.
Proof.
  set (isCert := fun obj => GetKind obj = "Certificate").
  set (front := filter isCert objs ++ filter (fun obj => ~ isCert obj) objs).
  assert (forall l : list Unstructured, filter isCert (filter (fun obj => ~ isCert obj) l) = []) as Hcn.
  { intros l. rewrite list_filter_filter. induction l as [|x l IH]; [done|].
    rewrite filter_cons, decide_False by tauto. done. }
  assert (forall l : list Unstructured, filter (fun obj => GetKind obj ∈ injectionKinds) (filter isCert l) = [])
    as Hic.
  { intros l. rewrite list_filter_filter. induction l as [|x l IH]; [done|].
    rewrite filter_cons, decide_False; [done|].
    unfold isCert. intros [Hi Hc]. rewrite Hc in Hi. not_injection Hi. }
  assert (forall l : list Unstructured, filter (fun obj => GetKind obj ∈ injectionKinds)
                      (filter (fun obj => ~ isCert obj) l)
                    = filter (fun obj => GetKind obj ∈ injectionKinds) l) as Hin.
  { intros l. apply list_filter_filter_l. unfold isCert. intros x Hi Hc.
    rewrite Hc in Hi. not_injection Hi. }
  unfold findWebhookServiceSecretName.
  assert (forall (l : list Unstructured) m, forRange collectCertificate m l
                      = forRange collectCertificate m (filter isCert l)) as H1.
  { intros l m. apply forRange_skip. intros s x Hx. unfold collectCertificate.
    by rewrite bool_decide_false. }
  assert (forall c (l : list Unstructured) m, forRange (collectService c) m l
                        = forRange (collectService c) m
                            (filter (fun obj => GetKind obj ∈ injectionKinds) l)) as H2.
  { intros c l m. apply forRange_skip. intros s x Hx. by apply collectService_other. }
  rewrite (H1 front), (H1 objs). unfold front.
  rewrite filter_app, Hcn, app_nil_r, list_filter_filter_l by done.
  destruct (forRange collectCertificate ∅ (filter isCert objs)) as [c|e]; simpl; [|done].
  rewrite (H2 c (_ ++ _)), (H2 c objs). by rewrite filter_app, Hic, Hin.
Qed.

(** ** Running the rewrite on its own output *)

Lemma forRange_id {E A S} (body : S -> A -> outcome E S) (s : S) (l : list A) :
  (forall s1 x, x ∈ l -> body s1 x = Ok s1) -> forRange body s l = Ok s.
Proof.
  induction l as [|x l IH]; intros H; simpl; [done|].
  rewrite H by by left. simpl. apply IH. intros s1 y Hy. apply H. by right.
Qed.

Lemma omap_fixed {A} (f : A -> option A) (l : list A) :
  (forall x, x ∈ l -> f x = Some x) -> omap f l = l.
Proof.
  induction l as [|x l IH]; intros H; csimpl; [done|].
  rewrite H by by left. rewrite IH; [done|]. intros y Hy. apply H. by right.
Qed.

Lemma collectService_shape (certs acc acc' : gmap string string) (obj : Unstructured) :
  GetKind obj ∈ injectionKinds ->
  collectService certs acc obj = Ok acc' -> injectionShape obj.
Proof.
  intros Hk. rewrite collectService_injection by done. unfold injectionShape.
  destruct (content obj); try case_bool_decide; done.
Qed.

Lemma collectService_unannotated (certs acc : gmap string string) (obj : Unstructured) :
  (GetKind obj ∈ injectionKinds ->
   injectionShape obj /\ GetAnnotations obj !! injectCAFrom = None) ->
  collectService certs acc obj = Ok acc.
Proof.
  intros H. destruct (decide (GetKind obj ∈ injectionKinds)) as [Hk|Hk];
    [|by apply collectService_other].
  destruct (H Hk) as [Hshape Ha]. rewrite collectService_injection by done.
  unfold injectionShape in Hshape. unfold recordService. rewrite Ha.
  destruct (content obj); try case_bool_decide; done.
Qed.

Lemma rewrites_output (m : gmap string string) (obj obj' : Unstructured) :
  rewrites m obj (Some obj') ->
  GetKind obj' = GetKind obj /\ content obj' = content obj /\
  (GetKind obj' ∉ skippedKinds) /\
  (GetKind obj' ∈ injectionKinds -> GetAnnotations obj' !! injectCAFrom = None).
Proof.
  inversion 1; subst;
    repeat match goal with
      | H : sameBody _ _ |- _ => destruct H as (Hkind & _ & _ & Hcontent)
      end;
    try rewrite Hkind;
    (split; [done|split; [done|split]]); try done;
    try (intros ?; kinds_clash).
Qed.

(** X4: the rewrite is idempotent: on its own output the resolver finds
    nothing to resolve and the rewrite returns that output unchanged. *)
Theorem certManagerToServiceCA_idempotent (objs out : list Unstructured) :
  certManagerToServiceCA objs = Ok out ->
  findWebhookServiceSecretName out = Ok ∅ /\
  certManagerToServiceCA out = Ok out.
Proof.
  unfold certManagerToServiceCA at 1.
  destruct (findWebhookServiceSecretName objs) as [m|e] eqn:Hm; simpl; [|done].
  rewrite rewriteStep_foldl. simpl. intros [= <-].
  assert (forall o', o' ∈ omap (rewriteObject m) objs ->
            (GetKind o' ∉ skippedKinds) /\
            (GetKind o' ∈ injectionKinds ->
             injectionShape o' /\ GetAnnotations o' !! injectCAFrom = None)) as Hout.
  { intros o' (o & Ho & Hr)%list_elem_of_omap.
    pose proof (rewriteObject_rewrites m o) as Hrw. rewrite Hr in Hrw.
    apply rewrites_output in Hrw as (Hkind & Hcontent & Hskip & Hann).
    split; [done|]. intros Hk. split; [|by apply Hann].
    destruct (findWebhookServiceSecretName_first_pass objs _ Hm)
      as [[[=] _]|[_ Hloop]].
    symmetry in Hloop.
    destruct (forRange_Ok_each _ _ _ _ o Hloop Ho) as (s1 & s2 & Hstep).
    rewrite Hkind in Hk. apply collectService_shape in Hstep; [|done].
    unfold injectionShape in *. by rewrite Hcontent, Hkind. }
  assert (findWebhookServiceSecretName (omap (rewriteObject m) objs) = Ok ∅) as Hres.
  { unfold findWebhookServiceSecretName. rewrite forRange_id.
    - simpl. apply forRange_id. intros acc o' Ho'.
      apply collectService_unannotated. by apply Hout.
    - intros acc o' Ho'. unfold collectCertificate.
      rewrite bool_decide_false; [done|]. intros Hc.
      apply (proj1 (Hout o' Ho')). rewrite Hc. repeat constructor. }
  split; [done|]. rewrite (certManagerToServiceCA_Ok _ _ Hres). f_equal.
  apply omap_fixed. intros o' Ho'. destruct (Hout o' Ho') as [Hskip Hinj].
  unfold rewriteObject, rewriteStep.
  case_bool_decide as Hk; [by rewrite (proj2 (Hinj Hk))|].
  case_bool_decide; [by rewrite lookup_empty|].
  by rewrite bool_decide_false.
Qed.

Lemma certManagerToServiceCA_idempotent_witness :
  let out := [SetAnnotations sampleCRD {[injectCABundle := "true"]};
              SetAnnotations sampleService {[servingCertSecretName := "s1"]}] in
  findWebhookServiceSecretName out = Ok ∅ /\ certManagerToServiceCA out = Ok out.
Proof.
  apply (certManagerToServiceCA_idempotent [sampleCert; sampleCRD; sampleService]).
  reflexivity.
Defined.

(** ** The catalog merge *)

Lemma recordImages_lookup (p : provider) (m : gmap string string)
    (images : list string) (key : string) :
  recordImages p m images !! key =
  match lastImageFor p key images with
  | Some image => Some image
  | None => m !! key
  end.
Proof.
  unfold lastImageFor. revert m.
  induction images as [|image images IH]; intros m; simpl; [done|].
  rewrite IH, filter_cons. destruct (decide (imageToKey p image = key)) as [<-|Hne].
  - destruct (filter _ images) as [|x l] eqn:Hf.
    + simpl. by rewrite lookup_insert_eq.
    + rewrite last_cons_cons. destruct (last (x :: l)) eqn:El; [done|].
      by apply last_None in El.
  - destruct (last (filter _ images)); [done|]. by rewrite lookup_insert_ne.
Qed.

Lemma updateImages_Ok_decodes (p : provider) (objs : list Unstructured)
    (catalog out : gmap string string) (obj : Unstructured) :
  updateImages p catalog objs = Ok out ->
  obj ∈ objs -> GetKind obj = "Deployment" -> is_Some (convertDeployment obj).
Proof.
  intros Hout Hobj Hk.
  destruct (forRange_Ok_each _ _ _ _ obj Hout Hobj) as (s1 & s2 & Hstep).
  revert Hstep. unfold updateImagesObj. rewrite bool_decide_true by done.
  by destruct (convertDeployment obj).
Qed.

(** X5: [updateImages] returns a catalog exactly when every object of
    kind Deployment decodes; an object of that kind that does not decode
    makes it return the conversion error, and a set without Deployments
    leaves the catalog as it was. *)
Theorem updateImages_error (p : provider) (catalog : gmap string string)
    (objs : list Unstructured) :
  ((exists out, updateImages p catalog objs = Ok out) <->
   (forall obj, obj ∈ objs -> GetKind obj = "Deployment" ->
                is_Some (convertDeployment obj))) /\
  ((exists obj, obj ∈ objs /\ GetKind obj = "Deployment" /\
                convertDeployment obj = None) ->
   updateImages p catalog objs = Fail ErrConvert) /\
  ((forall obj, obj ∈ objs -> GetKind obj <> "Deployment") ->
   updateImages p catalog objs = Ok catalog).
Proof.
  split; [split|split].
  - intros [out Hout] obj. by apply (updateImages_Ok_decodes p objs catalog out).
  - apply updateImages_decodes.
  - intros (obj & Hobj & Hk & Hnone).
    destruct (updateImages p catalog objs) as [out|[]] eqn:Hout; [|done].
    destruct (updateImages_Ok_decodes p objs catalog out obj Hout Hobj Hk) as [d Hd].
    congruence.
  - intros Hno. apply forRange_id. intros m obj Hobj. unfold updateImagesObj.
    rewrite bool_decide_false; [done|]. by apply Hno.
Qed.

Lemma updateImages_error_witness :
  (exists out, updateImages coreClusterAPI ∅ [twoContainers; sampleService] = Ok out) /\
  updateImages coreClusterAPI {["kube-rbac-proxy" := "old"]}
    [twoContainers; mkObject "Deployment" "broken" None OtherFields]
  = Fail ErrConvert /\
  updateImages coreClusterAPI {["kube-rbac-proxy" := "old"]} [sampleService; sampleRole]
  = Ok {["kube-rbac-proxy" := "old"]}.
Proof.
  split; [|split].
  - apply (proj1 (updateImages_error coreClusterAPI ∅ [twoContainers; sampleService])).
    intros obj Hobj Hk. elem_cases Hobj; [by eexists|discriminate Hk].
  - apply (proj1 (proj2 (updateImages_error coreClusterAPI _ _))).
    exists (mkObject "Deployment" "broken" None OtherFields).
    split; [repeat constructor|by split].
  - apply (proj2 (proj2 (updateImages_error coreClusterAPI _ _))).
    intros obj Hobj. elem_cases Hobj; discriminate.
Defined.

(** X6: the merge is idempotent: running [updateImages] again on the
    catalog it returned, with the same objects, returns that catalog. *)
Theorem updateImages_idempotent (p : provider) (catalog out : gmap string string)
    (objs : list Unstructured) :
  updateImages p catalog objs = Ok out ->
  updateImages p out objs = Ok out.
Proof.
  intros Hout.
  destruct (updateImages_decodes p objs out) as [out' Hout'].
  { intros obj. by apply (updateImages_Ok_decodes p objs catalog out). }
  rewrite Hout'. f_equal.
  apply updateImages_Ok in Hout as ->. apply updateImages_Ok in Hout' as ->.
  apply map_eq. intros key. rewrite !recordImages_lookup.
  by destruct (lastImageFor p key (containerImagesOf objs)).
Qed.

Lemma updateImages_idempotent_witness :
  updateImages coreClusterAPI
    {["kube-rbac-proxy" := "old";
      "core-cluster-api:manager" := "quay.io/capi/helper:v1"]} [twoContainers]
  = Ok {["kube-rbac-proxy" := "old";
         "core-cluster-api:manager" := "quay.io/capi/helper:v1"]}.
Proof.
  apply (updateImages_idempotent coreClusterAPI {["kube-rbac-proxy" := "old"]}).
  reflexivity.
Defined.

Lemma imageToKey_providerKeys (p : provider) (fullImage : string) :
  imageToKey p fullImage ∈ providerKeys p.
Proof.
  rewrite imageToKey_keyOfBareName. unfold keyOfBareName, providerKeys.
  repeat case_bool_decide; rewrite !elem_of_cons; tauto.
Qed.

(** X7: [imageToKey] has three possible answers per provider, so a run of
    [updateImages] binds no key beyond those of the prior catalog and
    these three. *)
Theorem updateImages_new_keys (p : provider) (catalog out : gmap string string)
    (objs : list Unstructured) (key : string) :
  updateImages p catalog objs = Ok out ->
  is_Some (out !! key) ->
  is_Some (catalog !! key) \/ key ∈ providerKeys p.
Proof.
  intros ->%updateImages_Ok. rewrite recordImages_lookup. unfold lastImageFor.
  destruct (last _) as [image|] eqn:Hl; [|by left].
  intros _. right. apply last_Some_elem_of in Hl.
  apply list_elem_of_filter in Hl as [<- _]. apply imageToKey_providerKeys.
Qed.

Lemma updateImages_new_keys_witness :
  is_Some (({["kube-rbac-proxy" := "old"]} : gmap string string)
             !! "core-cluster-api:manager") \/
  "core-cluster-api:manager" ∈ providerKeys coreClusterAPI.
Proof.
  apply (updateImages_new_keys coreClusterAPI {["kube-rbac-proxy" := "old"]}
           {["kube-rbac-proxy" := "old";
             "core-cluster-api:manager" := "quay.io/capi/helper:v1"]}
           [twoContainers]).
  - reflexivity.
  - by eexists.
Defined.

(** X8: the key of an image depends on its trailing path segment only:
    whatever stands before the last "/" (registry, repository) does not
    change it. *)
Theorem imageToKey_registry_irrelevant (p : provider) (registry rest : string) :
  imageToKey p (registry +:+ "/" +:+ rest) = imageToKey p rest.
Proof.
  change ("/" +:+ rest) with (String "/" rest).
  by rewrite !imageToKey_keyOfBareName, Split_last_app.
Qed.

(** ** secretFromCertNN *)

(** X9: the pair [secretFromCertNN] answers with is either a non-empty
    secret name bound to the second "/"-field of the value, with [true],
    or the empty string with [false]. *)
Theorem secretFromCertNN_answer (certSecretNames : gmap string string)
    (certNN secretName : string) (ok : bool) :
  secretFromCertNN certSecretNames certNN = Ok (secretName, ok) ->
  (ok = true ->
   secretName <> "" /\
   exists certName, Split certNN "/" !! 1%nat = Some certName /\
                    certSecretNames !! certName = Some secretName) /\
  (ok = false -> secretName = "").
Proof.
  unfold secretFromCertNN, index.
  destruct (Split certNN "/" !! 1%nat) as [cn|]; simpl; [|done].
  destruct (certSecretNames !! cn) as [s|] eqn:Hs; [case_bool_decide|];
    intros [= <- <-]; (split; [|done]); try done.
  intros _. split; [done|]. by exists cn.
Qed.

Lemma secretFromCertNN_answer_witness :
  ("s1" <> "" /\
   exists certName, Split "ns/c1" "/" !! 1%nat = Some certName /\
                    ({["c1" := "s1"]} : gmap string string) !! certName = Some "s1").
Proof.
  apply (secretFromCertNN_answer {["c1" := "s1"]} "ns/c1" "s1" true); reflexivity.
Defined.

(** X10: only the second "/"-field of the annotation value is looked up:
    whatever follows a further "/" is ignored. *)
Theorem secretFromCertNN_extra_fields (certSecretNames : gmap string string)
    (ns certName extra : string) :
  hasByte "/" ns = false ->
  hasByte "/" certName = false ->
  secretFromCertNN certSecretNames (ns +:+ "/" +:+ certName +:+ "/" +:+ extra) =
  secretFromCertNN certSecretNames (ns +:+ "/" +:+ certName).
Proof.
  intros Hns Hcn.
  change (ns +:+ "/" +:+ certName +:+ "/" +:+ extra)
    with (ns +:+ String "/" (certName +:+ String "/" extra)).
  change (ns +:+ "/" +:+ certName) with (ns +:+ String "/" certName).
  rewrite !secretFromCertNN_decode by done.
  pose proof (Split_app_sep certName extra "/" Hcn) as H1.
  pose proof (Split_noSep certName "/" Hcn) as H2.
  rewrite Split_cons in H1. rewrite Split_cons in H2.
  injection H1 as -> _. by injection H2 as -> _.
Qed.

Lemma secretFromCertNN_extra_fields_witness :
  secretFromCertNN {["c1" := "s1"]} "ns/c1/more/fields" =
  secretFromCertNN {["c1" := "s1"]} "ns/c1".
Proof.
  apply (secretFromCertNN_extra_fields {["c1" := "s1"]} "ns" "c1" "more/fields");
    reflexivity.
Defined.

(** ** ensureNewLine *)

(** X11: the byte strings [ensureNewLine] leaves as they are, are those
    that end in exactly one newline. *)
Theorem ensureNewLine_fixed (b : list ascii) :
  ensureNewLine b = b <->
  exists body, b = body ++ [newline] /\ last body <> Some newline.
Proof.
  unfold ensureNewLine. split.
  - intros H. exists (TrimRight b [newline]). split; [done|].
    intros Hl%TrimRight_last. apply Hl. by apply list_elem_of_singleton.
  - intros (body & -> & Hbody). f_equal.
    rewrite TrimRight_app_cut by (repeat constructor).
    apply TrimRight_fixed. intros c Hc ->%list_elem_of_singleton. done.
Qed.

(** ** The pipeline's core stream *)

(** X12: the core stream [importProviders] hands to the writers holds no
    Certificate, Issuer or Namespace, no object of an RBAC kind, no CRD or
    webhook configuration that still carries the cert-manager annotation
    and, for metal3, no object the IPAM filter removes: every object of
    it is a CRD or has a lower-cased name without "ipam", the lower-casing
    being [strings.ToLower] with any Unicode path. *)
Theorem importStreams_core_kinds
    (setOpenShiftAnnotations : Unstructured -> bool -> Unstructured)
    (mapUnicodeToLower : string -> string)
    (p : provider) (objs finalObjs rbacObjs : list Unstructured) :
  importStreams setOpenShiftAnnotations mapUnicodeToLower p objs
  = Ok (finalObjs, rbacObjs) ->
  Forall (fun obj =>
            (GetKind obj ∉ skippedKinds) /\ (GetKind obj ∉ rbacKinds) /\
            (GetKind obj ∈ injectionKinds ->
             GetAnnotations obj !! injectCAFrom = None) /\
            (name p = "metal3" ->
             GetKind obj = "CustomResourceDefinition" \/
             Contains (stringsToLower mapUnicodeToLower (GetName obj)) "ipam"
             = false)) finalObjs.
Proof.
  unfold importStreams.
  destruct (certManagerToServiceCA objs) as [rewritten|e] eqn:Hr; simpl; [|done].
  unfold splitRBACOut. rewrite splitRBACOut_foldl. simpl.
  unfold certManagerToServiceCA in Hr.
  destruct (findWebhookServiceSecretName objs) as [m|e] eqn:Hm; simpl in Hr; [|done].
  rewrite rewriteStep_foldl in Hr. simpl in Hr. injection Hr as <-.
  assert (forall o', o' ∈ omap (rewriteObject m) objs ->
            (GetKind o' ∉ skippedKinds) /\
            (GetKind o' ∈ injectionKinds ->
             GetAnnotations o' !! injectCAFrom = None)) as Hout.
  { intros o' (o & Ho & Hro)%list_elem_of_omap.
    pose proof (rewriteObject_rewrites m o) as Hrw. rewrite Hro in Hrw.
    by apply rewrites_output in Hrw as (_ & _ & ? & ?). }
  intros [= <- _]. apply Forall_forall. intros obj Hobj.
  case_bool_decide as Hp.
  - rewrite filterOutIPAM_filter in Hobj.
    apply list_elem_of_filter in Hobj as [Hs Hobj].
    apply list_elem_of_filter in Hobj as [Hrb Hobj].
    destruct (Hout obj Hobj). done.
  - apply list_elem_of_filter in Hobj as [Hrb Hobj].
    destruct (Hout obj Hobj). done.
Qed.

Lemma importStreams_core_kinds_witness :
  Forall (fun obj =>
            (GetKind obj ∉ skippedKinds) /\ (GetKind obj ∉ rbacKinds) /\
            (GetKind obj ∈ injectionKinds ->
             GetAnnotations obj !! injectCAFrom = None) /\
            (name infraMetal3 = "metal3" ->
             GetKind obj = "CustomResourceDefinition" \/
             Contains (stringsToLower sampleMapToLower (GetName obj)) "ipam"
             = false))
    [SetAnnotations sampleCRD {[injectCABundle := "true"]}; ipamCRD].
Proof.
  apply (importStreams_core_kinds sampleAnnotate sampleMapToLower infraMetal3
           [sampleCert; sampleCRD; sampleRole; ipamDeployment; dottedService; ipamCRD]
           _ [sampleAnnotate sampleRole false]).
  reflexivity.
Defined.

(** ** The writers *)

Lemma providerTypeNames_cases (t : string) :
  t ∈ providerTypeNames <->
  t = "core" \/ t = "controlplane" \/ t = "bootstrap" \/ t = "infrastructure".
Proof. unfold providerTypeNames. rewrite !elem_of_cons, elem_of_nil. tauto. Qed.

(** X13: [writeProviders] builds its object exactly for the four type
    names of its switch: it is then named after the provider, in the
    namespace openshift-cluster-api, with the spec of [providerSpec] and
    the kind of the type; for any other type name the object stays nil
    and the call panics.  No provider of the table [providers] panics,
    whatever version is loaded. *)
Theorem writeProviders_obj_cases (p : provider) :
  (providerTypeName p ∈ providerTypeNames ->
   exists obj, writeProviders_obj p = Ok obj /\
               po_Name obj = name p /\
               po_Namespace obj = "openshift-cluster-api" /\
               po_Spec obj = providerSpec p /\
               (providerTypeName p = "core" -> po_Kind obj = "CoreProvider") /\
               (providerTypeName p = "controlplane" ->
                po_Kind obj = "ControlPlaneProvider") /\
               (providerTypeName p = "bootstrap" ->
                po_Kind obj = "BootstrapProvider") /\
               (providerTypeName p = "infrastructure" ->
                po_Kind obj = "InfrastructureProvider")) /\
  (providerTypeName p ∉ providerTypeNames ->
   writeProviders_obj p = Fail NilDereference) /\
  (forall providerVersions,
     p ∈ providers ->
     exists obj, writeProviders_obj (loadVersion providerVersions p) = Ok obj).
Proof.
  split; [|split].
  - intros Ht%providerTypeNames_cases. unfold writeProviders_obj.
    destruct Ht as [Ht|[Ht|[Ht|Ht]]]; rewrite Ht; simpl;
      eexists; (split; [reflexivity|]); simpl; repeat split; done.
  - rewrite providerTypeNames_cases. intros Ht. unfold writeProviders_obj.
    rewrite !bool_decide_false by tauto. done.
  - intros providerVersions Hp. unfold providers in Hp.
    elem_cases Hp; by eexists.
Qed.

Lemma writeProviders_obj_cases_witness :
  (exists obj, writeProviders_obj infraMetal3 = Ok obj /\
               po_Name obj = "metal3" /\
               po_Namespace obj = "openshift-cluster-api" /\
               po_Spec obj = providerSpec infraMetal3 /\
               po_Kind obj = "InfrastructureProvider") /\
  writeProviders_obj {| name := "x"; version := "v1"; ptype := "" |}
  = Fail NilDereference.
Proof.
  split.
  - destruct (proj1 (writeProviders_obj_cases infraMetal3))
      as (obj & Hobj & Hn & Hns & Hs & _ & _ & _ & Hk).
    { apply providerTypeNames_cases. by right; right; right. }
    exists obj. repeat split; try done. by apply Hk.
  - apply (proj1 (proj2 (writeProviders_obj_cases
                           {| name := "x"; version := "v1"; ptype := "" |}))).
    rewrite providerTypeNames_cases. intros [H|[H|[H|H]]]; discriminate H.
Defined.

(** X14: the selector [providerSpec] writes into the activation record
    matches the labels of a ConfigMap of [writeProviderComponents]
    exactly when both come from providers of the same name and type name:
    it selects its own ConfigMap, of any version, and no other
    provider's. *)
Theorem providerSpec_selects (p q : provider) (metadata combined : string) :
  ps_MatchLabels (providerSpec p)
    ⊆ cm_Labels (writeProviderComponents_cm q metadata combined) <->
  name p = name q /\ providerTypeName p = providerTypeName q.
Proof.
  unfold providerSpec, writeProviderComponents_cm. simpl.
  rewrite map_subseteq_spec. split.
  - intros H. split.
    + specialize (H "provider.cluster.x-k8s.io/name" (name p)).
      rewrite !lookup_insert_eq in H. specialize (H eq_refl). congruence.
    + specialize (H "provider.cluster.x-k8s.io/type" (providerTypeName p)).
      rewrite lookup_insert_ne, lookup_insert_eq in H by done.
      rewrite lookup_insert_ne, lookup_insert_eq in H by done.
      specialize (H eq_refl). congruence.
  - intros [Hn Ht] k v. rewrite Hn, Ht.
    rewrite !lookup_insert_Some, lookup_empty. intros [[<- <-]|[Hk [[<- <-]|[_ [=]]]]].
    + by left.
    + right. split; [done|]. by left.
Qed.

(** ** File names *)

Lemma lowerByte_dash (c : ascii) :
  Ascii.eqb (lowerByte c) "-" = Ascii.eqb c "-".
Proof. by destruct c as [[] [] [] [] [] [] [] []]. Qed.

Lemma lowerByte_idemp (c : ascii) : lowerByte (lowerByte c) = lowerByte c.
Proof. by destruct c as [[] [] [] [] [] [] [] []]. Qed.

Lemma ToLower_idemp (s : string) : ToLower (ToLower s) = ToLower s.
Proof. induction s as [|c s IH]; simpl; [done|]. by rewrite lowerByte_idemp, IH. Qed.

Lemma ToLower_app (a b : string) : ToLower (a +:+ b) = ToLower a +:+ ToLower b.
Proof. induction a as [|c a IH]; simpl; [done|]. by rewrite IH. Qed.

Lemma ToLower_hasByte_dash (s : string) :
  hasByte "-" (ToLower s) = hasByte "-" s.
Proof. induction s as [|c s IH]; simpl; [done|]. by rewrite lowerByte_dash, IH. Qed.

Lemma app_sep_inj (a a' b b' : string) (sep : ascii) :
  hasByte sep a = false -> hasByte sep a' = false ->
  a +:+ String sep b = a' +:+ String sep b' -> a = a' /\ b = b'.
Proof.
  revert a'. induction a as [|c a IH]; intros [|c' a']; simpl.
  - intros _ _ [= ->]. done.
  - intros _ [Hc _]%orb_false_elim [= <- _]. by rewrite Ascii.eqb_refl in Hc.
  - intros [Hc _]%orb_false_elim _ [= -> _]. by rewrite Ascii.eqb_refl in Hc.
  - intros [_ Ha]%orb_false_elim [_ Ha']%orb_false_elim [= -> H].
    destruct (IH a' Ha Ha' H) as [-> ->]. done.
Qed.

Lemma length_app_string (a b : string) :
  String.length (a +:+ b) = String.length a + String.length b.
Proof. induction a as [|c a IH]; simpl; [done|]. by rewrite IH. Qed.

Lemma app_inv_tail_string (a b c : string) : a +:+ c = b +:+ c -> a = b.
Proof.
  revert b. induction a as [|x a IH]; intros [|y b]; simpl; [done| | |].
  - intros H. apply (f_equal String.length) in H.
    simpl in H. rewrite !length_app_string in H. simpl in H. lia.
  - intros H. apply (f_equal String.length) in H.
    simpl in H. rewrite !length_app_string in H. simpl in H. lia.
  - intros [= -> H]. by rewrite (IH b H).
Qed.

Lemma fName_inj (t n t' n' suffix : string) :
  hasByte "-" t = false -> hasByte "-" t' = false ->
  ToLower (t +:+ "-" +:+ n +:+ suffix) = ToLower (t' +:+ "-" +:+ n' +:+ suffix) ->
  ToLower t = ToLower t' /\ ToLower n = ToLower n'.
Proof.
  intros Ht Ht'. rewrite !ToLower_app. simpl.
  change (String (lowerByte "-") (ToLower n +:+ ToLower suffix))
    with (String "-" (ToLower n +:+ ToLower suffix)).
  change (String (lowerByte "-") (ToLower n' +:+ ToLower suffix))
    with (String "-" (ToLower n' +:+ ToLower suffix)).
  intros [H1 H2]%app_sep_inj; [|by rewrite ToLower_hasByte_dash..].
  split; [done|]. by apply app_inv_tail_string in H2.
Qed.

(** X15: the three file names of a provider are lower-case, and for type
    names without "-" (as the four of [writeProviders] are) each of them
    determines the type name and the provider name up to case: two
    providers write to the same file only if they agree on both. *)
Theorem fName_injective (p q : provider) :
  hasByte "-" (providerTypeName p) = false ->
  hasByte "-" (providerTypeName q) = false ->
  (ToLower (writeProviderComponents_fName p) = writeProviderComponents_fName p /\
   ToLower (writeRBACComponentsToManifests_fName p)
   = writeRBACComponentsToManifests_fName p /\
   ToLower (writeProviders_fName p) = writeProviders_fName p) /\
  (writeProviderComponents_fName p = writeProviderComponents_fName q \/
   writeRBACComponentsToManifests_fName p = writeRBACComponentsToManifests_fName q \/
   writeProviders_fName p = writeProviders_fName q ->
   ToLower (providerTypeName p) = ToLower (providerTypeName q) /\
   ToLower (name p) = ToLower (name q)).
Proof.
  intros Hp Hq. split.
  - unfold writeProviderComponents_fName, writeRBACComponentsToManifests_fName,
      writeProviders_fName. by rewrite !ToLower_idemp.
  - intros [H|[H|H]].
    + by apply (fName_inj _ _ _ _ ".yaml").
    + unfold writeRBACComponentsToManifests_fName in H.
      rewrite (ToLower_app "0000_30_cluster-api-") in H.
      rewrite (ToLower_app "0000_30_cluster-api-" (providerTypeName q +:+ _)) in H.
      simpl in H. injection H as H.
      by apply (fName_inj _ _ _ _ "_03_rbac.yaml").
    + by apply (fName_inj _ _ _ _ "-provider.yaml").
Qed.

Lemma fName_injective_witness :
  (ToLower (writeProviderComponents_fName infraMetal3)
   = writeProviderComponents_fName infraMetal3 /\
   ToLower (writeRBACComponentsToManifests_fName infraMetal3)
   = writeRBACComponentsToManifests_fName infraMetal3 /\
   ToLower (writeProviders_fName infraMetal3) = writeProviders_fName infraMetal3) /\
  (ToLower (providerTypeName infraMetal3)
   = ToLower (providerTypeName
                {| name := "Metal3"; version := "v2";
                   ptype := InfrastructureProviderType |}) /\
   ToLower (name infraMetal3) = ToLower "Metal3").
Proof.
  destruct (fName_injective infraMetal3
              {| name := "Metal3"; version := "v2";
                 ptype := InfrastructureProviderType |}) as [Hlow Hinj];
    [reflexivity|reflexivity|].
  split; [exact Hlow|]. apply Hinj. left. reflexivity.
Defined.

(** ** The provider filter of importProviders *)

Lemma forRange_ext {E A S} (f g : S -> A -> outcome E S) (s : S) (l : list A) :
  (forall s1 x, x ∈ l -> f s1 x = g s1 x) -> forRange f s l = forRange g s l.
Proof.
  revert s. induction l as [|x l IH]; intros s H; simpl; [done|].
  rewrite H by by left. destruct (g s x); simpl; [|done].
  apply IH. intros s1 y Hy. apply H. by right.
Qed.

Lemma filter_none {A} (P : A -> Prop) `{!forall x, Decision (P x)} (l : list A) :
  (forall x, x ∈ l -> ~ P x) -> filter P l = [].
Proof.
  induction l as [|x l IH]; intros Hl; [done|].
  rewrite filter_cons, decide_False by (apply Hl; by left).
  apply IH. intros y Hy. apply Hl. by right.
Qed.

Lemma importProviders_selected {W Err} (importProvider : W -> provider -> outcome Err W)
    (providerFilter : string) (w : W) :
  importProviders importProvider providerFilter w =
  forRange importProvider w
    (filter (fun p => providerFilter = "" \/ name p = providerFilter) providers).
Proof.
  unfold importProviders.
  rewrite (forRange_skip _ (fun p => providerFilter = "" \/ name p = providerFilter)).
  - apply forRange_ext. intros s p [Hsel _]%list_elem_of_filter.
    unfold importProvidersStep.
    destruct Hsel as [Hsel | Hsel].
    + rewrite (bool_decide_false (providerFilter <> ""));
        [done|intros H; by apply H].
    + rewrite (bool_decide_false (name p <> providerFilter));
        [by rewrite andb_false_r|intros H; by apply H].
  - intros s p Hsel. unfold importProvidersStep.
    rewrite !bool_decide_true; [done| |]; intros H; apply Hsel; [by right|by left].
Qed.

(** X16: with an empty filter [importProviders] runs every provider of
    the table in order; with the name of a provider of the table it runs
    that provider alone; with any other non-empty filter it runs nothing
    and returns without an error. *)
Theorem importProviders_filter {W Err}
    (importProvider : W -> provider -> outcome Err W) (w : W) :
  importProviders importProvider "" w = forRange importProvider w providers /\
  (forall p, p ∈ providers ->
             importProviders importProvider (name p) w = importProvider w p) /\
  (forall providerFilter,
     providerFilter <> "" ->
     (forall p, p ∈ providers -> name p <> providerFilter) ->
     importProviders importProvider providerFilter w = Ok w).
Proof.
  split; [|split].
  - by rewrite importProviders_selected.
  - intros p Hp. unfold providers in Hp.
    elem_cases Hp; vm_compute;
      match goal with |- context [importProvider w ?q] =>
        by destruct (importProvider w q) end.
  - intros providerFilter Hne Hnone. rewrite importProviders_selected.
    rewrite filter_none; [done|].
    intros p Hp [H|H]; [done|]. by apply (Hnone p).
Qed.

Lemma importProviders_filter_witness :
  importProviders
    (fun (w : list string) p => Ok (w ++ [name p]) : outcome error (list string))
    "metal3" [] = Ok ["metal3"] /\
  importProviders
    (fun (w : list string) p => Ok (w ++ [name p]) : outcome error (list string))
    "metal" [] = Ok [].
Proof.
  destruct (importProviders_filter
              (fun (w : list string) p =>
                 Ok (w ++ [name p]) : outcome error (list string)) [])
    as (_ & Hone & Hnone).
  split.
  - apply (Hone {| name := "metal3"; version := "";
                   ptype := InfrastructureProviderType |}).
    unfold providers. rewrite !elem_of_cons. tauto.
  - apply Hnone; [discriminate|].
    intros p Hp. unfold providers in Hp. elem_cases Hp; discriminate.
Defined.

(** ** Tags of images *)

(** X17: the tag does not reach the key either: an image whose trailing
    segment is [segment:tag] has the key of the bare [segment], for any
    registry path and any tag. *)
Theorem imageToKey_tag_irrelevant (p : provider) (registry segment tag : string) :
  hasByte "/" segment = false ->
  hasByte ":" segment = false ->
  hasByte "/" tag = false ->
  imageToKey p (registry +:+ "/" +:+ segment +:+ ":" +:+ tag) = imageToKey p segment.
Proof.
  intros Hs1 Hs2 Ht.
  change (registry +:+ "/" +:+ segment +:+ ":" +:+ tag)
    with (registry +:+ String "/" (segment +:+ String ":" tag)).
  rewrite !imageToKey_keyOfBareName, bareName_of_tagged by done.
  pose proof (Split_noSep segment "/" Hs1) as H1.
  pose proof (Split_noSep segment ":" Hs2) as H2.
  rewrite H1. simpl. rewrite Split_cons in H2. by injection H2 as -> _.
Qed.

Lemma imageToKey_tag_irrelevant_witness :
  imageToKey infraMetal3 "quay.io/metal3-io/ip-address-manager:v1.1.0"
  = imageToKey infraMetal3 "ip-address-manager".
Proof.
  apply (imageToKey_tag_irrelevant infraMetal3 "quay.io/metal3-io"
           "ip-address-manager" "v1.1.0"); reflexivity.
Defined.
